(** * Ubuntu_Requests: the per-URL image acquisition pipeline

    A shallow embedding of [Ubuntu_Requests.py].  Python [str] values are
    lists of 8-bit characters, [bytes] values are lists of [Byte.byte],
    exceptions are an explicit [result] type, and the target directory is
    an association list from entry names to nodes that the pipeline
    threads through as state.  The library functions the program calls
    ([urllib.parse.urlparse], [os.path], [int], [hashlib.md5]) are
    modelled next to the code that uses them: [urlparse] as of
    CPython 3.11.4, with the check of bracketed hosts that it takes from
    [ipaddress], and [int] with the default limit of 4300 digits;
    [mimetypes.guess_extension] depends on the host's MIME
    database and is a section variable.  What the program prints is not
    modelled, and neither are symbolic links or interrupts. *)

From Stdlib Require Import Ascii String List ZArith Lia Bool Arith.
From Stdlib.Strings Require Import Byte.
From Stdlib Require Import DecimalString DecimalNat.
From Equations Require Import Equations.
Import ListNotations.

Local Open Scope list_scope.

Arguments Ascii.eqb : simpl never.

(** ** Python values *)

Definition str := list ascii.
Definition bytes := list byte.

Definition lit (s : string) : str := list_ascii_of_string s.

Definition str_eqb (a b : str) : bool :=
  if list_eq_dec ascii_dec a b then true else false.

Definition code (c : ascii) : nat := nat_of_ascii c.

Definition chr (n : nat) : ascii := ascii_of_nat n.

Definition in_chars (c : ascii) (cs : str) : bool :=
  existsb (Ascii.eqb c) cs.

(** ** Exceptions *)

(** The exception classes the program can meet.  [RequestException] is
    the root of the [requests] hierarchy (itself an [IOError]);
    [IOError] stands for the remaining [OSError]s; [OtherException] is
    any other subclass of [Exception]. *)
Inductive exn : Type :=
| RequestException
| IOError
| ValueError
| OtherException.

Inductive result (A : Type) : Type :=
| Ok (a : A)
| Raise (e : exn).

Arguments Ok {A} a.
Arguments Raise {A} e.

Definition bind {A B} (m : result A) (k : A -> result B) : result B :=
  match m with
  | Ok a => k a
  | Raise e => Raise e
  end.

Notation "x <- m ;; k" := (bind m (fun x => k))
  (at level 61, m at next level, right associativity).

Notation "' pat <- m ;; k" :=
  (bind m (fun x => match x with pat => k end))
  (at level 61, pat pattern, m at next level, right associativity).

(** [isinstance(e, requests.exceptions.RequestException)] *)
Definition is_RequestException (e : exn) : bool :=
  match e with RequestException => true | _ => false end.

(** [isinstance(e, IOError)]: [RequestException] derives from [IOError]. *)
Definition is_IOError (e : exn) : bool :=
  match e with RequestException | IOError => true | _ => false end.

(** ** [str] methods *)

Fixpoint startswith (prefix s : str) : bool :=
  match prefix, s with
  | [], _ => true
  | _ :: _, [] => false
  | a :: p, b :: t => Ascii.eqb a b && startswith p t
  end.

Definition endswith (suffix s : str) : bool :=
  startswith (rev suffix) (rev s).

(** [sub in s] *)
Fixpoint contains (sub s : str) : bool :=
  startswith sub s ||
  match s with
  | [] => false
  | _ :: t => contains sub t
  end.

(** [s.find(c)] for a single character, [None] for [-1]. *)
Fixpoint find_char (c : ascii) (s : str) : option nat :=
  match s with
  | [] => None
  | x :: t => if Ascii.eqb x c then Some 0
              else option_map S (find_char c t)
  end.

(** [s.rfind(c)] for a single character, with Python's [-1]. *)
Fixpoint rfind (c : ascii) (s : str) : Z :=
  match s with
  | [] => (-1)%Z
  | x :: t =>
      let r := rfind c t in
      if (0 <=? r)%Z then (r + 1)%Z
      else if Ascii.eqb x c then 0%Z else (-1)%Z
  end.

(** Slices [s[:i]] and [s[i:]] for [i >= 0]. *)
Definition slice_to (i : Z) (s : str) : str := firstn (Z.to_nat i) s.
Definition slice_from (i : Z) (s : str) : str := skipn (Z.to_nat i) s.

(** [s.split(sep)] for a non-empty separator: leftmost, non-overlapping
    occurrences.  [skip] counts the characters of a separator that was
    just recognised and is still being consumed; [cur] is the current
    piece, reversed. *)
Fixpoint split_go (sep s cur : str) (skip : nat) : list str :=
  match s with
  | [] => [rev cur]
  | c :: t =>
      match skip with
      | S k => split_go sep t cur k
      | O =>
          if startswith sep s
          then rev cur :: split_go sep t [] (length sep - 1)
          else split_go sep t (c :: cur) 0
      end
  end.

Definition split (sep s : str) : list str := split_go sep s [] 0.

(** [l[i]] on a list of strings; the program only indexes where the
    element exists. *)
Definition item (i : nat) (l : list str) : str := nth i l [].

Fixpoint lstrip (cs : str) (s : str) : str :=
  match s with
  | c :: t => if in_chars c cs then lstrip cs t else s
  | [] => []
  end.

Definition rstrip (cs : str) (s : str) : str := rev (lstrip cs (rev s)).

(** [s.strip(cs)] *)
Definition strip (cs : str) (s : str) : str := rstrip cs (lstrip cs s).

(** The characters below U+0100 for which [str.isspace] holds. *)
Definition whitespace : str :=
  map chr [9; 10; 11; 12; 13; 28; 29; 30; 31; 32; 133; 160].

(** [s.strip()] *)
Definition strip_ws (s : str) : str := strip whitespace s.

Definition is_upper_char (c : ascii) : bool :=
  let n := code c in
  ((65 <=? n) && (n <=? 90)) ||
  ((192 <=? n) && (n <=? 222) && negb (n =? 215)).

Definition lower_char (c : ascii) : ascii :=
  if is_upper_char c then chr (code c + 32) else c.

(** [s.lower()] on characters below U+0100. *)
Definition lower (s : str) : str := map lower_char s.

Definition is_digit (c : ascii) : bool :=
  let n := code c in (48 <=? n) && (n <=? 57).

Definition is_ascii_alpha (c : ascii) : bool :=
  let n := code c in
  ((65 <=? n) && (n <=? 90)) || ((97 <=? n) && (n <=? 122)).

(** ** [int(s)] *)

(** The digits of a base-10 literal after the sign: groups of digits
    separated by single underscores.  [acc] is the value so far and
    [prev_digit] tells whether the previous character was a digit. *)
Fixpoint int_digits (s : str) (acc : Z) (prev_digit : bool) : option Z :=
  match s with
  | [] => if prev_digit then Some acc else None
  | c :: t =>
      if is_digit c
      then int_digits t (10 * acc + Z.of_nat (code c - 48))%Z true
      else if Ascii.eqb c "_"%char && prev_digit
           then match t with
                | d :: _ => if is_digit d then int_digits t acc false else None
                | [] => None
                end
           else None
  end.

(** The characters below U+0100 that [int] skips around a literal. *)
Definition int_whitespace : str :=
  map chr [9; 10; 11; 12; 13; 32; 133; 160].

(** [sys.int_info.default_max_str_digits]: the program never changes the
    interpreter's limit on the length of a decimal literal. *)
Definition max_str_digits : Z := 4300.

(** The literal after the sign: the digits are counted first (leading
    zeros count, underscores do not) and a literal of more than
    [max_str_digits] digits is refused before it is converted. *)
Definition int_literal (t : str) : option Z :=
  if (max_str_digits <? Z.of_nat (length (filter is_digit t)))%Z
  then None
  else int_digits t 0 false.

(** [int(s)] for a [str] argument: surrounding whitespace is ignored,
    an optional sign follows, then the digits.  [None] is
    [ValueError]. *)
Definition python_int (s : str) : option Z :=
  match strip int_whitespace s with
  | [] => None
  | c :: t =>
      if Ascii.eqb c "-"%char
      then option_map Z.opp (int_literal t)
      else if Ascii.eqb c "+"%char
           then int_literal t
           else int_literal (c :: t)
  end.

Definition int (s : str) : result Z :=
  match python_int s with
  | Some n => Ok n
  | None => Raise ValueError
  end.

(** [str(n)] for a non-negative counter. *)
Definition str_of_nat (n : nat) : str :=
  list_ascii_of_string (NilEmpty.string_of_uint (Nat.to_uint n)).

(** ** [urllib.parse.urlparse(url).path] *)

Definition c0_control_or_space : str := map chr (seq 0 33).

Definition scheme_chars : str :=
  lit "abcdefghijklmnopqrstuvwxyzABCDEFGHIJKLMNOPQRSTUVWXYZ0123456789+-.".

Definition uses_params : list str :=
  map lit [""; "ftp"; "hdl"; "prospero"; "http"; "imap"; "https"; "shttp";
           "rtsp"; "rtspu"; "sip"; "sips"; "mms"; "sftp"; "tel"]%string.

(** The text before the first occurrence of [c] (all of [s] if none):
    [s.split(c, 1)[0]]. *)
Fixpoint before (c : ascii) (s : str) : str :=
  match s with
  | [] => []
  | x :: t => if Ascii.eqb x c then [] else x :: before c t
  end.

(** [_splitnetloc(url, 2)]: the network location runs from index 2 to the
    first of [/], [?], [#]. *)
Fixpoint netloc_end (s : str) : str * str :=
  match s with
  | [] => ([], [])
  | x :: t =>
      if in_chars x (lit "/?#") then ([], s)
      else let '(n, r) := netloc_end t in (x :: n, r)
  end.

(** [s.partition(c)] for a single character: the text before the first
    [c], whether [c] occurs, and the text after it. *)
Definition partition (c : ascii) (s : str) : str * bool * str :=
  match find_char c s with
  | Some i => (firstn i s, true, skipn (S i) s)
  | None => (s, false, [])
  end.

(** [s.rpartition(c)[2]]: the text after the last [c], all of [s] if
    there is none. *)
Definition rpartition_tail (c : ascii) (s : str) : str :=
  slice_from (rfind c s + 1) s.

Definition is_empty (s : str) : bool :=
  match s with
  | [] => true
  | _ :: _ => false
  end.

(** *** [ipaddress]: what [urlsplit] asks of a bracketed host *)

Definition hex_digits : str := lit "0123456789ABCDEFabcdef".

Definition digit_value (c : ascii) : Z :=
  let n := code c in
  if (48 <=? n) && (n <=? 57) then Z.of_nat (n - 48)
  else if (97 <=? n) && (n <=? 102) then Z.of_nat (n - 87)
  else Z.of_nat (n - 55).

(** [int(s, base)] on a string that holds digits of the base only. *)
Definition int_base (base : Z) (s : str) : Z :=
  fold_left (fun acc c => base * acc + digit_value c)%Z s 0%Z.

(** ['%x' % n] for [0 <= n <= 0xFFFF]. *)
Definition format_x (n : Z) : str :=
  let nibble k :=
    nth (Z.to_nat (Z.land (Z.shiftr n (4 * k)) 15)) (lit "0123456789abcdef")
        "0"%char in
  match lstrip (lit "0") (map nibble [3; 2; 1; 0]%Z) with
  | [] => lit "0"
  | s => s
  end.

Fixpoint all_some {A} (l : list (option A)) : option (list A) :=
  match l with
  | [] => Some []
  | Some a :: t => option_map (cons a) (all_some t)
  | None :: _ => None
  end.

(** [IPv4Address._parse_octet]; [None] is [ValueError]. *)
Definition parse_octet (octet_str : str) : option Z :=
  if is_empty octet_str then None
  else if negb (forallb is_digit octet_str) then None
  else if 3 <? length octet_str then None
  else if negb (str_eqb octet_str (lit "0"))
          && Ascii.eqb (hd "000"%char octet_str) "0"%char then None
  else let octet_int := int_base 10 octet_str in
       if (255 <? octet_int)%Z then None else Some octet_int.

(** [int.from_bytes(octets, 'big')] *)
Definition from_bytes_big (octets : list Z) : Z :=
  fold_left (fun acc b => 256 * acc + b)%Z octets 0%Z.

(** [IPv4Address._ip_int_from_string]; [None] is [AddressValueError]. *)
Definition v4_ip_int_from_string (ip_str : str) : option Z :=
  if is_empty ip_str then None
  else let octets := split (lit ".") ip_str in
       if negb (length octets =? 4) then None
       else option_map from_bytes_big (all_some (map parse_octet octets)).

(** [IPv4Address(address)._ip] *)
Definition IPv4Address (address : str) : option Z :=
  if in_chars "/"%char address then None
  else v4_ip_int_from_string address.

(** [IPv6Address._parse_hextet]: hexadecimal digits only, at most four,
    and [int(s, 16)] refuses the empty string. *)
Definition parse_hextet (hextet_str : str) : option Z :=
  if negb (forallb (fun c => in_chars c hex_digits) hextet_str) then None
  else if 4 <? length hextet_str then None
  else if is_empty hextet_str then None
  else Some (int_base 16 hextet_str).

(** An IPv4-style last part is replaced by its two hextets. *)
Definition ipv4_suffix (parts : list str) : option (list str) :=
  if in_chars "."%char (last parts [])
  then match IPv4Address (last parts []) with
       | None => None
       | Some ipv4_int =>
           Some (removelast parts
                 ++ [format_x (Z.land (Z.shiftr ipv4_int 16) 0xFFFF);
                     format_x (Z.land ipv4_int 0xFFFF)])
       end
  else Some parts.

(** [ip_int <<= 16; ip_int |= _parse_hextet(part)] *)
Definition shift_in (ip_int : option Z) (part : str) : option Z :=
  match ip_int, parse_hextet part with
  | Some n, Some h => Some (Z.lor (Z.shiftl n 16) h)
  | _, _ => None
  end.

(** The two loops over the hextets above and below the [::]. *)
Definition parse_hextets (parts : list str)
    (parts_hi parts_lo parts_skipped : nat) : option Z :=
  let ip_int := fold_left shift_in (firstn parts_hi parts) (Some 0%Z) in
  let ip_int :=
    option_map (fun n => Z.shiftl n (16 * Z.of_nat parts_skipped)) ip_int in
  fold_left shift_in (skipn (length parts - parts_lo) parts) ip_int.

(** [IPv6Address._ip_int_from_string]; [None] is [AddressValueError]. *)
Definition v6_ip_int_from_string (ip_str : str) : option Z :=
  if is_empty ip_str then None
  else
    let parts := split (lit ":") ip_str in
    if length parts <? 3 then None
    else
      match ipv4_suffix parts with
      | None => None
      | Some parts =>
          let n := length parts in
          if 9 <? n then None
          else
            match filter (fun i => is_empty (item i parts)) (seq 1 (n - 2)) with
            | _ :: _ :: _ => None
            | [skip_index] =>
                let leading := is_empty (item 0 parts) in
                let trailing := is_empty (item (n - 1) parts) in
                let parts_hi := if leading then skip_index - 1 else skip_index in
                let parts_lo :=
                  if trailing then n - skip_index - 1 - 1
                  else n - skip_index - 1 in
                if leading && negb (parts_hi =? 0) then None
                else if trailing && negb (parts_lo =? 0) then None
                else if 8 <? parts_hi + parts_lo + 1 then None
                else parse_hextets parts parts_hi parts_lo
                       (8 - (parts_hi + parts_lo))
            | [] =>
                if negb (n =? 8) then None
                else if is_empty (item 0 parts) then None
                else if is_empty (item (n - 1) parts) then None
                else parse_hextets parts n 0 0
            end
      end.

(** [_split_scope_id] *)
Definition split_scope_id (ip_str : str) : option (str * option str) :=
  let '(addr, sep, scope_id) := partition "%"%char ip_str in
  if negb sep then Some (addr, None)
  else if is_empty scope_id || in_chars "%"%char scope_id then None
  else Some (addr, Some scope_id).

(** [IPv6Address(address)._ip] *)
Definition IPv6Address (address : str) : option Z :=
  if in_chars "/"%char address then None
  else match split_scope_id address with
       | None => None
       | Some (addr_str, _) => v6_ip_int_from_string addr_str
       end.

Inductive ip : Type :=
  | IPv4 (n : Z)
  | IPv6 (n : Z).

(** [ipaddress.ip_address(address)]; [None] is [ValueError]. *)
Definition ip_address (address : str) : option ip :=
  match IPv4Address address with
  | Some n => Some (IPv4 n)
  | None =>
      match IPv6Address address with
      | Some n => Some (IPv6 n)
      | None => None
      end
  end.

(** [re.match(r"\Av[a-fA-F0-9]+\..+\Z", hostname)]: a [v], at least one
    hexadecimal digit, a dot, and at least one character, none of them
    a line feed. *)
Definition ipvfuture (hostname : str) : bool :=
  match hostname with
  | c :: t =>
      let rest := lstrip hex_digits t in
      Ascii.eqb c "v"%char && (length rest <? length t)
      && match rest with
         | d :: r => Ascii.eqb d "."%char && negb (is_empty r)
                     && negb (in_chars (chr 10) r)
         | [] => false
         end
  | [] => false
  end.

(** [_check_bracketed_host] *)
Definition check_bracketed_host (hostname : str) : result unit :=
  if startswith (lit "v") hostname
  then if ipvfuture hostname then Ok tt else Raise ValueError
  else match ip_address hostname with
       | None => Raise ValueError
       | Some (IPv4 _) => Raise ValueError
       | Some (IPv6 _) => Ok tt
       end.

(** [_check_bracketed_netloc] *)
Definition check_bracketed_netloc (netloc : str) : result unit :=
  let hostname_and_port := rpartition_tail "@"%char netloc in
  let '(before_bracket, have_open_br, bracketed) :=
    partition "["%char hostname_and_port in
  if have_open_br
  then
    if negb (is_empty before_bracket) then Raise ValueError
    else
      let '(hostname, _, port) := partition "]"%char bracketed in
      if negb (is_empty port) && negb (startswith (lit ":") port)
      then Raise ValueError
      else check_bracketed_host hostname
  else
    let '(hostname, _, _) := partition ":"%char hostname_and_port in
    check_bracketed_host hostname.

(** [urlsplit]: scheme and path.  A network location with unbalanced
    square brackets raises [ValueError], and so does one whose bracketed
    host is not an IPv6 or IPvFuture address. *)
Definition urlsplit (url0 : str) : result (str * str) :=
  let url := lstrip c0_control_or_space url0 in
  let url := filter (fun c => negb (in_chars c (map chr [9; 13; 10]))) url in
  let '(scheme, url) :=
    match find_char ":"%char url with
    | Some i =>
        if (0 <? i) && is_ascii_alpha (hd "000"%char url)
           && forallb (fun c => in_chars c scheme_chars) (firstn i url)
        then (lower (firstn i url), skipn (S i) url)
        else ([], url)
    | None => ([], url)
    end in
  r <- (if str_eqb (firstn 2 url) (lit "//")
        then
          let '(netloc, rest) := netloc_end (skipn 2 url) in
          let lb := in_chars "["%char netloc in
          let rb := in_chars "]"%char netloc in
          if (lb && negb rb) || (rb && negb lb)
          then Raise ValueError
          else
            _ <- (if lb && rb then check_bracketed_netloc netloc
                  else Ok tt) ;;
            Ok rest
        else Ok url) ;;
  let url := before "#"%char r in
  let url := before "?"%char url in
  Ok (scheme, url).

(** [_splitparams(url)[0]] *)
Definition splitparams (url : str) : str :=
  let sep := rfind "/"%char url in
  if (0 <=? sep)%Z
  then slice_to sep url ++ before ";"%char (slice_from sep url)
  else before ";"%char url.

Definition urlparse_path (url : str) : result str :=
  '(scheme, path) <- urlsplit url ;;
  if existsb (str_eqb scheme) uses_params && in_chars ";"%char path
  then Ok (splitparams path)
  else Ok path.

(** ** [os.path] *)

(** [os.path.join(a, b)] *)
Definition join (a b : str) : str :=
  if startswith (lit "/") b then b
  else if (match a with [] => true | _ => false end) || endswith (lit "/") a
       then a ++ b
       else a ++ lit "/" ++ b.

(** [os.path.basename(p)] *)
Definition basename (p : str) : str :=
  slice_from (rfind "/"%char p + 1) p.

(** [os.path.splitext(p)]: the extension starts at the last dot of the
    last path component, unless that component has nothing but dots
    before it. *)
Definition splitext (p : str) : str * str :=
  let sepIndex := rfind "/"%char p in
  let dotIndex := rfind "."%char p in
  if (sepIndex <? dotIndex)%Z
  then
    let leading := slice_to (dotIndex - (sepIndex + 1)) (slice_from (sepIndex + 1) p) in
    if existsb (fun c => negb (Ascii.eqb c "."%char)) leading
    then (slice_to dotIndex p, slice_from dotIndex p)
    else (p, [])
  else (p, []).

(** ** The target directory *)

(** How reading a regular file can fail: not at all, at [open], or at
    the read that follows [after] successful ones. *)
Inductive read_fault : Type :=
| NoFault
| OpenFails
| ReadFails (after : nat).

(** A directory entry: a regular file with its bytes, a subdirectory, or
    anything else that is not a regular file (socket, fifo, device). *)
Inductive node : Type :=
| RegularFile (data : bytes) (fault : read_fault)
| Directory
| Special.

(** How writing a new file can fail: not at all, at [open], or in
    [write] after [written] bytes have reached the file. *)
Inductive write_fault : Type :=
| NoWriteFault
| CreateFails
| WriteFails (written : nat).

(** The contents of the target directory, in the order [os.listdir]
    reports them, and what happens when a file is written to it. *)
Record filesystem : Type := {
  entries : list (str * node);
  on_write : write_fault
}.

(** Computations that read and change the directory and may raise: the
    directory afterwards comes with the result or the exception. *)
Definition M (A : Type) : Type := filesystem -> filesystem * result A.

Definition ret {A} (a : A) : M A := fun fs => (fs, Ok a).

Definition bindM {A B} (m : M A) (k : A -> M B) : M B :=
  fun fs =>
    let '(fs', r) := m fs in
    match r with
    | Ok a => k a fs'
    | Raise e => (fs', Raise e)
    end.

(** A step that does not touch the directory. *)
Definition lift {A} (r : result A) : M A := fun fs => (fs, r).

(** A step that only reads the directory. *)
Definition reading {A} (f : filesystem -> result A) : M A :=
  fun fs => (fs, f fs).

Notation "x <~ m ;; k" := (bindM m (fun x => k))
  (at level 61, m at next level, right associativity).

Notation "' pat <~ m ;; k" :=
  (bindM m (fun x => match x with pat => k end))
  (at level 61, pat pattern, m at next level, right associativity).

Fixpoint lookup (name : str) (l : list (str * node)) : option node :=
  match l with
  | [] => None
  | (n, x) :: t => if str_eqb n name then Some x else lookup name t
  end.

Fixpoint strip_prefix (p s : str) : option str :=
  match p, s with
  | [], _ => Some s
  | _ :: _, [] => None
  | a :: p', b :: s' => if Ascii.eqb a b then strip_prefix p' s' else None
  end.

(** The name a path has inside the target directory, if it lies there. *)
Definition entry_name (directory path : str) : option str :=
  strip_prefix (join directory []) path.

Definition dot_names : list str := map lit [""; "."; ".."]%string.

(** What a path refers to: the directory itself and its parent always
    exist; other names are looked up among the entries. *)
Definition stat (directory : str) (fs : filesystem) (path : str) : option node :=
  match entry_name directory path with
  | None => None
  | Some n =>
      if existsb (str_eqb n) dot_names then Some Directory
      else lookup n (entries fs)
  end.

Definition os_listdir (fs : filesystem) : list str := map fst (entries fs).

Definition os_path_exists (directory : str) (fs : filesystem) (path : str) : bool :=
  match stat directory fs path with
  | Some _ => true
  | None => false
  end.

Definition os_path_isfile (directory : str) (fs : filesystem) (path : str) : bool :=
  match stat directory fs path with
  | Some (RegularFile _ _) => true
  | _ => false
  end.

(** An open binary file: the bytes not yet read, and how many reads
    will succeed before one fails ([None]: all of them). *)
Record file_handle : Type := {
  remaining : bytes;
  reads_left : option nat
}.

(** [open(filepath, "rb")] *)
Definition open_rb (directory : str) (fs : filesystem) (filepath : str)
  : result file_handle :=
  match stat directory fs filepath with
  | Some (RegularFile data NoFault) =>
      Ok {| remaining := data; reads_left := None |}
  | Some (RegularFile data (ReadFails k)) =>
      Ok {| remaining := data; reads_left := Some k |}
  | _ => Raise IOError
  end.

(** [f.read(n)] *)
Definition read (n : nat) (f : file_handle) : result (bytes * file_handle) :=
  match reads_left f with
  | Some O => Raise IOError
  | r =>
      Ok (firstn n (remaining f),
          {| remaining := skipn n (remaining f);
             reads_left := option_map Nat.pred r |})
  end.

Fixpoint replace_entry (name : str) (x : node) (l : list (str * node))
  : list (str * node) :=
  match l with
  | [] => []
  | (n, y) :: t =>
      if str_eqb n name then (n, x) :: t else (n, y) :: replace_entry name x t
  end.

(** The directory once [data] is the content of the regular file [n];
    [None] when [n] is taken by something that is not a regular file. *)
Definition store (fs : filesystem) (n : str) (data : bytes)
  : option filesystem :=
  match lookup n (entries fs) with
  | Some (RegularFile _ _) =>
      Some {| entries := replace_entry n (RegularFile data NoFault) (entries fs);
              on_write := on_write fs |}
  | Some _ => None
  | None =>
      Some {| entries := entries fs ++ [(n, RegularFile data NoFault)];
              on_write := on_write fs |}
  end.

(** [with open(filepath, "wb") as f: f.write(content)]: creates the
    file, or truncates an existing regular file.  A failing [write]
    leaves the bytes written so far behind. *)
Definition write_file (directory filepath : str) (content : bytes) : M unit :=
  fun fs =>
    match entry_name directory filepath with
    | None => (fs, Raise IOError)
    | Some n =>
        if existsb (str_eqb n) dot_names || in_chars "/"%char n
        then (fs, Raise IOError)
        else
          match on_write fs with
          | CreateFails => (fs, Raise IOError)
          | NoWriteFault =>
              match store fs n content with
              | Some fs' => (fs', Ok tt)
              | None => (fs, Raise IOError)
              end
          | WriteFails written =>
              match store fs n (firstn written content) with
              | Some fs' => (fs', Raise IOError)
              | None => (fs, Raise IOError)
              end
          end
    end.

(** ** [hashlib.md5] *)

Module MD5.

Local Open Scope Z_scope.

Definition mask : Z := 0xFFFFFFFF.

Definition add32 (a b : Z) : Z := Z.land (a + b) mask.

Definition rotl32 (x c : Z) : Z :=
  Z.land (Z.lor (Z.shiftl x c) (Z.shiftr x (32 - c))) mask.

Definition not32 (x : Z) : Z := Z.lxor x mask.

(** Per-round shift amounts. *)
Definition S_table : list Z :=
  [7; 12; 17; 22; 7; 12; 17; 22; 7; 12; 17; 22; 7; 12; 17; 22;
   5; 9; 14; 20; 5; 9; 14; 20; 5; 9; 14; 20; 5; 9; 14; 20;
   4; 11; 16; 23; 4; 11; 16; 23; 4; 11; 16; 23; 4; 11; 16; 23;
   6; 10; 15; 21; 6; 10; 15; 21; 6; 10; 15; 21; 6; 10; 15; 21].

(** [floor(2^32 * abs(sin(i + 1)))] *)
Definition K_table : list Z :=
  [0xd76aa478; 0xe8c7b756; 0x242070db; 0xc1bdceee;
   0xf57c0faf; 0x4787c62a; 0xa8304613; 0xfd469501;
   0x698098d8; 0x8b44f7af; 0xffff5bb1; 0x895cd7be;
   0x6b901122; 0xfd987193; 0xa679438e; 0x49b40821;
   0xf61e2562; 0xc040b340; 0x265e5a51; 0xe9b6c7aa;
   0xd62f105d; 0x02441453; 0xd8a1e681; 0xe7d3fbc8;
   0x21e1cde6; 0xc33707d6; 0xf4d50d87; 0x455a14ed;
   0xa9e3e905; 0xfcefa3f8; 0x676f02d9; 0x8d2a4c8a;
   0xfffa3942; 0x8771f681; 0x6d9d6122; 0xfde5380c;
   0xa4beea44; 0x4bdecfa9; 0xf6bb4b60; 0xbebfbc70;
   0x289b7ec6; 0xeaa127fa; 0xd4ef3085; 0x04881d05;
   0xd9d4d039; 0xe6db99e5; 0x1fa27cf8; 0xc4ac5665;
   0xf4292244; 0x432aff97; 0xab9423a7; 0xfc93a039;
   0x655b59c3; 0x8f0ccc92; 0xffeff47d; 0x85845dd1;
   0x6fa87e4f; 0xfe2ce6e0; 0xa3014314; 0x4e0811a1;
   0xf7537e82; 0xbd3af235; 0x2ad7d2bb; 0xeb86d391].

Definition byte_val (b : byte) : Z := Z.of_N (Byte.to_N b).

(** Little-endian words of a block. *)
Fixpoint words (block : bytes) : list Z :=
  match block with
  | b0 :: b1 :: b2 :: b3 :: t =>
      (byte_val b0 + Z.shiftl (byte_val b1) 8 + Z.shiftl (byte_val b2) 16
       + Z.shiftl (byte_val b3) 24) :: words t
  | _ => []
  end.

Definition regs : Type := Z * Z * Z * Z.

Definition round (M : list Z) (r : regs) (i : nat) : regs :=
  let '(A, B, C, D) := r in
  let iz := Z.of_nat i in
  let '(F, g) :=
    if iz <? 16 then (Z.lor (Z.land B C) (Z.land (not32 B) D), iz)
    else if iz <? 32 then
      (Z.lor (Z.land D B) (Z.land (not32 D) C), (5 * iz + 1) mod 16)
    else if iz <? 48 then (Z.lxor B (Z.lxor C D), (3 * iz + 5) mod 16)
    else (Z.lxor C (Z.lor B (not32 D)), (7 * iz) mod 16) in
  let F := add32 (add32 (add32 F A) (nth i K_table 0)) (nth (Z.to_nat g) M 0) in
  (D, add32 B (rotl32 F (nth i S_table 0)), B, C).

(** The compression function on one 64-byte block. *)
Definition compress (r : regs) (block : bytes) : regs :=
  let '(a0, b0, c0, d0) := r in
  let '(A, B, C, D) := fold_left (round (words block)) (seq 0 64) r in
  (add32 a0 A, add32 b0 B, add32 c0 C, add32 d0 D).

(** A hash object: chaining value, bytes of the block in progress,
    and the number of bytes absorbed so far. *)
Record state : Type := {
  chain : regs;
  buffer : bytes;
  count : Z
}.

(** [hashlib.md5()] *)
Definition new : state :=
  {| chain := (0x67452301, 0xefcdab89, 0x98badcfe, 0x10325476);
     buffer := [];
     count := 0 |}.

Definition feed (st : state) (b : byte) : state :=
  let buf := buffer st ++ [b] in
  if (length buf =? 64)%nat
  then {| chain := compress (chain st) buf; buffer := []; count := count st + 1 |}
  else {| chain := chain st; buffer := buf; count := count st + 1 |}.

(** [h.update(data)] *)
Definition update (st : state) (data : bytes) : state :=
  fold_left feed data st.

Definition le_bytes (n : nat) (x : Z) : list Z :=
  map (fun k => Z.land (Z.shiftr x (8 * Z.of_nat k)) 0xFF) (seq 0 n).

Definition byte_of_Z (x : Z) : byte :=
  match Byte.of_N (Z.to_N x) with
  | Some b => b
  | None => x00
  end.

(** The final padding: a one bit, zeros up to 56 modulo 64, then the
    message length in bits as a 64-bit little-endian integer. *)
Definition padding (st : state) : bytes :=
  let n := length (buffer st) in
  let zeros := if (n <? 56)%nat then (55 - n)%nat else (119 - n)%nat in
  x80 :: repeat x00 zeros
  ++ map byte_of_Z (le_bytes 8 (Z.land (8 * count st) 0xFFFFFFFFFFFFFFFF)).

Fixpoint blocks (fuel : nat) (data : bytes) : list bytes :=
  match fuel with
  | O => []
  | S k =>
      match data with
      | [] => []
      | _ => firstn 64 data :: blocks k (skipn 64 data)
      end
  end.

(** [h.digest()]: the hash object itself is left untouched. *)
Definition digest (st : state) : list Z :=
  let final := fold_left compress (blocks 2 (buffer st ++ padding st)) (chain st) in
  let '(a, b, c, d) := final in
  le_bytes 4 a ++ le_bytes 4 b ++ le_bytes 4 c ++ le_bytes 4 d.

Definition hex_digit (x : Z) : ascii :=
  nth (Z.to_nat x) (lit "0123456789abcdef") "0"%char.

(** [h.hexdigest()] *)
Definition hexdigest (st : state) : str :=
  flat_map (fun x => [hex_digit (Z.shiftr x 4); hex_digit (Z.land x 15)])
           (digest st).

(** [hashlib.md5(data)] *)
Definition md5 (data : bytes) : state := update new data.

End MD5.

Definition bytes_of (s : string) : bytes := list_byte_of_string s.

(** ** HTTP responses *)

(** Header names are compared without regard to case, as the [requests]
    header dictionary does. *)
Definition headers : Type := list (str * str).

Fixpoint headers_get (key : str) (h : headers) : option str :=
  match h with
  | [] => None
  | (k, v) :: t =>
      if str_eqb (lower k) (lower key) then Some v else headers_get key t
  end.

(** [h.get(key, default)] *)
Definition headers_get_default (key default : str) (h : headers) : str :=
  match headers_get key h with
  | Some v => v
  | None => default
  end.

(** A response: its status, its headers, and what reading the body
    ([response.content]) yields. *)
Record Response : Type := {
  status_code : nat;
  response_headers : headers;
  content : result bytes
}.

(** [response.raise_for_status()] *)
Definition raise_for_status (r : Response) : result unit :=
  if (400 <=? status_code r) && (status_code r <? 600)
  then Raise RequestException
  else Ok tt.

(** What [requests.head] and [requests.get] do for each URL. *)
Record network : Type := {
  requests_head : str -> result Response;
  requests_get : str -> result Response
}.

(** ** The program *)

Definition inspect {A} (a : A) : {b : A | a = b} := exist _ a eq_refl.

(** The size passed to [f.read]. *)
Definition chunk_size : nat := 4096.

Arguments chunk_size : simpl never.

(** [for chunk in iter(lambda: f.read(4096), b""): hash_md5.update(chunk)] *)
Equations? hash_chunks (f : file_handle) (hash_md5 : MD5.state)
  : result MD5.state by wf (length (remaining f)) lt :=
  hash_chunks f hash_md5 with inspect (read chunk_size f) := {
    | exist _ (Raise e) _ => Raise e
    | exist _ (Ok ([], _)) _ => Ok hash_md5
    | exist _ (Ok (b :: chunk, f')) Hread =>
        hash_chunks f' (MD5.update hash_md5 (b :: chunk)) }.
Proof.
  assert (0 < chunk_size) as Hpos by apply Nat.lt_0_succ.
  unfold read in Hread.
  assert (Hlen : remaining f' = skipn chunk_size (remaining f)
                 /\ firstn chunk_size (remaining f) = b :: chunk).
  { destruct (reads_left f) as [[|k]|]; try discriminate;
      injection Hread as Hc Hf; subst f'; split;
      solve [reflexivity | exact Hc]. }
  destruct Hlen as [-> Hc].
  destruct (remaining f) as [|x r].
  - rewrite firstn_nil in Hc. discriminate.
  - rewrite length_skipn. cbn [length]. lia.
Qed.

Definition calculate_file_hash (directory : str) (fs : filesystem)
           (filepath : str) : result (option str) :=
  let hash_md5 := MD5.new in
  match (f <- open_rb directory fs filepath ;;
         h <- hash_chunks f hash_md5 ;;
         Ok (Some (MD5.hexdigest h))) with
  | Ok r => Ok r
  | Raise e => if is_IOError e then Ok None else Raise e
  end.

(** [existing_hash == new_hash], where [existing_hash] may be [None]. *)
Definition hash_eqb (existing_hash : option str) (new_hash : str) : bool :=
  match existing_hash with
  | Some h => str_eqb h new_hash
  | None => false
  end.

(** The [for filename in os.listdir(directory)] loop. *)
Fixpoint scan_directory (directory : str) (fs : filesystem) (new_hash : str)
         (names : list str) : result (bool * option str) :=
  match names with
  | [] => Ok (false, None)
  | filename :: rest =>
      let filepath := join directory filename in
      if os_path_isfile directory fs filepath
      then
        existing_hash <- calculate_file_hash directory fs filepath ;;
        if hash_eqb existing_hash new_hash
        then Ok (true, Some filename)
        else scan_directory directory fs new_hash rest
      else scan_directory directory fs new_hash rest
  end.

Definition is_duplicate_image (content : bytes) (directory : str)
           (fs : filesystem) : result (bool * option str) :=
  let new_hash := MD5.hexdigest (MD5.md5 content) in
  scan_directory directory fs new_hash (os_listdir fs).

Definition size_limit : Z := 10 * 1024 * 1024.

Definition image_extensions : list str :=
  map lit [".jpg"; ".jpeg"; ".png"; ".gif"; ".bmp"; ".webp"; ".tiff"]%string.

(** Whether the warning about the URL's extension is printed. *)
Definition extension_warning (url : str) : result bool :=
  path <- urlparse_path url ;;
  let path := lower path in
  Ok (negb (existsb (fun ext => endswith ext path) image_extensions)).

Definition not_an_image (content_type : str) : str :=
  lit "Content type is not an image: " ++ content_type.

Definition too_large : str := lit "File size exceeds safety limit (10MB)".

Definition is_safe_to_download (url : str) (response : Response)
  : result (bool * str) :=
  let content_type :=
    headers_get_default (lit "content-type") [] (response_headers response) in
  if negb (startswith (lit "image/") content_type)
  then Ok (false, not_an_image content_type)
  else
    let content_length := headers_get (lit "content-length") (response_headers response) in
    over <- match content_length with
            | None | Some [] => Ok false
            | Some cl => n <- int cl ;; Ok (size_limit <? n)%Z
            end ;;
    if over : bool
    then Ok (false, too_large)
    else
      _ <- extension_warning url ;;
      Ok (true, lit "Safe to download").

Definition has_dot (filename : str) : bool := in_chars "."%char filename.

Definition safe_chars : str :=
  lit " -_.()[]{}abcdefghijklmnopqrstuvwxyzABCDEFGHIJKLMNOPQRSTUVWXYZ0123456789".

Definition quotes : str := [chr 34; chr 39].

Section Mimetypes.

(** [mimetypes.guess_extension]: [None] when the type is unknown. *)
Variable guess_extension : str -> option str.

(** [mimetypes.guess_extension(content_type.split(';')[0]) or '.jpg'] *)
Definition extension_for (response : Response) : str :=
  let content_type :=
    headers_get_default (lit "content-type") (lit "image/jpeg")
                        (response_headers response) in
  match guess_extension (item 0 (split (lit ";") content_type)) with
  | None | Some [] => lit ".jpg"
  | Some ext => ext
  end.

Definition get_filename_from_url (url : str) (response : Response)
  : result str :=
  path <- urlparse_path url ;;
  let filename := basename path in
  let filename :=
    if (match filename with [] => true | _ => false end) || negb (has_dot filename)
    then
      let content_disp :=
        headers_get_default (lit "content-disposition") []
                            (response_headers response) in
      if contains (lit "filename=") content_disp
      then strip quotes (item 1 (split (lit "filename=") content_disp))
      else filename
    else filename in
  let filename :=
    if (match filename with [] => true | _ => false end) || negb (has_dot filename)
    then lit "downloaded_image" ++ extension_for response
    else filename in
  let filename := item 0 (split (lit "#") (item 0 (split (lit "?") filename))) in
  let filename := strip_ws (filter (fun c => in_chars c safe_chars) filename) in
  let filename :=
    if negb (has_dot filename)
    then filename ++ extension_for response
    else filename in
  Ok filename.

(** The [while os.path.exists(filepath)] loop.  [None]: the loop is
    still running when the fuel is spent. *)
Fixpoint conflict_loop (fuel : nat) (directory : str) (fs : filesystem)
         (original_filepath filepath : str) (counter : nat) : option str :=
  if os_path_exists directory fs filepath
  then
    match fuel with
    | O => None
    | S fuel' =>
        let '(name, ext) := splitext original_filepath in
        let filepath := name ++ lit "_" ++ str_of_nat counter ++ ext in
        conflict_loop fuel' directory fs original_filepath filepath (counter + 1)
    end
  else Some filepath.

(** Lines 124-133: the path the new file is written to. *)
Definition resolve_filepath (fuel : nat) (url : str) (response : Response)
           (directory : str) (fs : filesystem) : result (option str) :=
  filename <- get_filename_from_url url response ;;
  let filepath := join directory filename in
  let counter := 1 in
  let original_filepath := filepath in
  Ok (conflict_loop fuel directory fs original_filepath filepath counter).

(** The inner [try] around the HEAD request: a [RequestException] is
    dropped, anything else goes on to the outer handlers. *)
Definition probe_headers (net : network) (url : str) : result unit :=
  match (head_response <- requests_head net url ;;
         raise_for_status head_response) with
  | Ok _ => Ok tt
  | Raise e => if is_RequestException e then Ok tt else Raise e
  end.

(** The body of the outer [try]: the returned flag, [None] when the
    conflict loop ran out of fuel. *)
Definition download_body (fuel : nat) (net : network) (url directory : str)
  : M (option bool) :=
  _ <~ lift (probe_headers net url) ;;
  response <~ lift (requests_get net url) ;;
  _ <~ lift (raise_for_status response) ;;
  '(is_safe, message) <~ lift (is_safe_to_download url response) ;;
  if negb is_safe then ret (Some false)
  else
    content <~ lift (content response) ;;
    '(is_dup, existing_filename) <~
       reading (is_duplicate_image content directory) ;;
    if is_dup : bool then ret (Some true)
    else
      r <~ reading (resolve_filepath fuel url response directory) ;;
      match r with
      | None => ret None
      | Some filepath =>
          _ <~ write_file directory filepath content ;;
          ret (Some true)
      end.

(** [download_single_image]: both handlers fall through to
    [return False].  The result is the returned flag with the directory
    as the call leaves it. *)
Definition download_single_image_fuel (fuel : nat) (net : network)
           (url directory : str) (fs : filesystem)
  : option (bool * filesystem) :=
  let '(fs', r) := download_body fuel net url directory fs in
  match r with
  | Ok (Some flag) => Some (flag, fs')
  | Ok None => None
  | Raise e =>
      if is_RequestException e then Some (false, fs') else Some (false, fs')
  end.

(** The conflict loop ends within a few passes more than the
    directory has entries, so this fuel is never used up. *)
Definition download_single_image (net : network) (url directory : str)
           (fs : filesystem) : option (bool * filesystem) :=
  download_single_image_fuel (length (entries fs) + 4) net url directory fs.

(** The batch loop of [main]: the per-URL outcomes in order, and the
    directory at the end. *)
Fixpoint process_urls (net : network) (urls : list str) (directory : str)
         (fs : filesystem) : option (list bool * filesystem) :=
  match urls with
  | [] => Some ([], fs)
  | url :: rest =>
      match download_single_image net url directory fs with
      | None => None
      | Some (ok, fs') =>
          match process_urls net rest directory fs' with
          | None => None
          | Some (oks, fs'') => Some (ok :: oks, fs'')
          end
      end
  end.

Definition successful_downloads (outcomes : list bool) : nat :=
  length (filter (fun b => b) outcomes).

End Mimetypes.

(** [[url.strip() for url in urls_input.split(',') if url.strip()]] *)
Definition parse_urls (urls_input : str) : list str :=
  map strip_ws
      (filter (fun url => match strip_ws url with [] => false | _ => true end)
              (split (lit ",") urls_input)).

(** The directory [main] downloads into. *)
Definition fetched_images : str := lit "Fetched_Images".

(** [main], given the line the user types: no summary when the line is
    blank, otherwise the number of successful downloads and the number
    of URLs.  The outer [None] is a conflict loop out of fuel. *)
Definition main (guess_extension : str -> option str) (net : network)
           (typed : str) (fs : filesystem)
  : option (option (nat * nat) * filesystem) :=
  let directory := fetched_images in
  let urls_input := strip_ws typed in
  match urls_input with
  | [] => Some (None, fs)
  | _ =>
      let urls := parse_urls urls_input in
      let total_urls := length urls in
      match process_urls guess_extension net urls directory fs with
      | None => None
      | Some (outcomes, fs') =>
          Some (Some (successful_downloads outcomes, total_urls), fs')
      end
  end.

(** ** Notions the statements use *)

(** Whether the read that is set to fail is reached while a file of
    [len] bytes is hashed: read number [k] (from 0) happens when [k = 0]
    or the file is longer than [(k - 1) * chunk_size] bytes; the empty
    read that ends the loop counts. *)
Definition reads_fail (r : option nat) (len : nat) : bool :=
  match r with
  | None => false
  | Some k => (k =? 0) || ((k - 1) * chunk_size <? len)
  end.

(** Whether hashing a regular file hits its fault. *)
Definition read_fails (data : bytes) (fault : read_fault) : bool :=
  match fault with
  | NoFault => false
  | OpenFails => true
  | ReadFails k => reads_fail (Some k) (length data)
  end.

(** The digest of a directory entry, computed over the whole file at
    once; entries that are not regular files, and files that cannot be
    read, have none. *)
Definition file_digest (x : node) : option str :=
  match x with
  | RegularFile data fault =>
      if read_fails data fault then None
      else Some (MD5.hexdigest (MD5.md5 data))
  | _ => None
  end.

Fixpoint distinct (l : list str) : bool :=
  match l with
  | [] => true
  | x :: t => negb (existsb (str_eqb x) t) && distinct t
  end.

(** Entry names are single path components, and no two entries share a
    name. *)
Definition valid_name (n : str) : bool :=
  negb (in_chars "/"%char n) && negb (existsb (str_eqb n) dot_names).

Definition wf_fs (fs : filesystem) : bool :=
  forallb valid_name (os_listdir fs) && distinct (os_listdir fs).

Definition digest_matches (d : str) (e : str * node) : bool :=
  hash_eqb (file_digest (snd e)) d.

(** What a correct duplicate scan returns for digest [d := md5(content)]:
    a match is reported exactly when some entry has that digest, the
    reported name is one of the matching entries, and without a matching
    entry the answer is [(False, None)]. *)
Definition duplicate_scan_correct (content : bytes) (directory : str)
           (fs : filesystem) : Prop :=
  let d := MD5.hexdigest (MD5.md5 content) in
  let verdict := is_duplicate_image content directory fs in
  ((exists name x, In (name, x) (entries fs) /\ file_digest x = Some d)
   <-> (exists name, verdict = Ok (true, Some name)))
  /\ (forall name, verdict = Ok (true, Some name) ->
        exists x, In (name, x) (entries fs) /\ file_digest x = Some d)
  /\ ((forall name x, In (name, x) (entries fs) -> file_digest x <> Some d) ->
        verdict = Ok (false, None)).

Definition sample_dir : str := lit "Fetched_Images".

Definition sample_fs : filesystem :=
  {| entries := [(lit "notes", Directory);
                 (lit "locked.png", RegularFile (bytes_of "abc") OpenFails);
                 (lit "cat.jpeg", RegularFile (bytes_of "abc") NoFault)];
     on_write := NoWriteFault |}.

(** A directory in which nothing can be read: a file that cannot be
    opened and one whose first read fails, both holding [abc]. *)
Definition locked_fs : filesystem :=
  {| entries := [(lit "locked.png", RegularFile (bytes_of "abc") OpenFails);
                 (lit "torn.png", RegularFile (bytes_of "abc") (ReadFails 0))];
     on_write := NoWriteFault |}.

Definition long_file : bytes := repeat x41 4500.

Definition long_fs : filesystem :=
  {| entries := [(lit "long.bin", RegularFile long_file NoFault)];
     on_write := NoWriteFault |}.

(** The candidate the conflict loop builds for counter [n]. *)
Definition candidate (original_filepath : str) (n : nat) : str :=
  let '(name, ext) := splitext original_filepath in
  name ++ lit "_" ++ str_of_nat n ++ ext.

(** The name with [_<n>] put right before its extension. *)
Definition numbered (filename : str) (n : nat) : str :=
  let '(stem, ext) := splitext filename in
  stem ++ lit "_" ++ str_of_nat n ++ ext.

(** Every name under which something exists in the directory. *)
Definition existing_names (fs : filesystem) : list str :=
  dot_names ++ os_listdir fs.

(** [n] is the first counter from [c] on whose candidate is free. *)
Definition first_free (directory : str) (fs : filesystem) (p : str)
           (c n : nat) : Prop :=
  c <= n
  /\ os_path_exists directory fs (candidate p n) = false
  /\ forall m, c <= m < n -> os_path_exists directory fs (candidate p m) = true.

Definition sanitized (filename : str) : bool :=
  forallb (fun c => in_chars c safe_chars) filename.

(** The extensions the MIME database hands out are a dot followed by
    safe characters. *)
Definition plain_extensions (guess_extension : str -> option str) : Prop :=
  forall t e, guess_extension t = Some e ->
              e = [] \/ (startswith (lit ".") e = true /\ sanitized e = true).

(** The directory after a new regular file has been created in it. *)
Definition with_new_file (fs : filesystem) (name : str) (content : bytes)
  : filesystem :=
  {| entries := entries fs ++ [(name, RegularFile content NoFault)];
     on_write := on_write fs |}.



Definition content_type_of (response : Response) : str :=
  headers_get_default (lit "content-type") [] (response_headers response).

Definition content_length_of (response : Response) : option str :=
  headers_get (lit "content-length") (response_headers response).

(** A content-length header is present and its integer value exceeds
    the limit. *)
Definition declares_oversize (response : Response) : Prop :=
  exists v n, content_length_of response = Some v
              /\ python_int v = Some n /\ (size_limit < n)%Z.

(** The claim as the specification words it: not an image, too large,
    and in every other case accepted. *)
Definition validate_as_specified (url : str) (response : Response) : Prop :=
  let content_type := content_type_of response in
  (startswith (lit "image/") content_type = false ->
   is_safe_to_download url response = Ok (false, not_an_image content_type))
  /\ (startswith (lit "image/") content_type = true ->
      declares_oversize response ->
      is_safe_to_download url response = Ok (false, too_large))
  /\ (startswith (lit "image/") content_type = true ->
      ~ declares_oversize response ->
      is_safe_to_download url response = Ok (true, lit "Safe to download")).

(** The content-length header is absent, empty, or an integer within the
    limit. *)
Definition declares_within_limit (response : Response) : Prop :=
  content_length_of response = None
  \/ content_length_of response = Some []
  \/ exists v n, content_length_of response = Some v
                 /\ python_int v = Some n /\ (n <= size_limit)%Z.

Definition sample_guess_extension (t : str) : option str :=
  if str_eqb t (lit "image/png") then Some (lit ".png")
  else if str_eqb t (lit "image/jpeg") then Some (lit ".jpg")
  else if str_eqb t (lit "image/gif") then Some (lit ".gif")
  else None.

Definition respond (content_type content_length body : string) : Response :=
  {| status_code := 200;
     response_headers := [(lit "Content-Type", lit content_type);
                          (lit "Content-Length", lit content_length)];
     content := Ok (bytes_of body) |}.

(** An image whose content-length is a literal of 4301 digits. *)
Definition long_length_response : Response :=
  {| status_code := 200;
     response_headers := [(lit "Content-Type", lit "image/png");
                          (lit "Content-Length", repeat "9"%char 4301)];
     content := Ok [] |}.

(** A network on which every URL answers with [r]. *)
Definition serve (r : Response) : network :=
  {| requests_head := fun _ => Ok r; requests_get := fun _ => Ok r |}.

(** A network on which no host can be reached. *)
Definition unreachable : network :=
  {| requests_head := fun _ => Raise RequestException;
     requests_get := fun _ => Raise RequestException |}.

(** Two hosts that serve different pictures under the same file name. *)
Definition two_hosts : network :=
  let answer url :=
    if str_eqb url (lit "https://a.example/image.jpg")
    then Ok (respond "image/jpeg" "3" "one")
    else Ok (respond "image/jpeg" "3" "two") in
  {| requests_head := answer; requests_get := answer |}.


Definition empty_fs : filesystem :=
  {| entries := []; on_write := NoWriteFault |}.

(** A directory on a disk that takes one more byte. *)
Definition full_disk_fs : filesystem :=
  {| entries := []; on_write := WriteFails 1 |}.

Definition image_fs : filesystem :=
  {| entries := [(lit "image.jpg", RegularFile (bytes_of "one") NoFault)];
     on_write := NoWriteFault |}.

(** The digests of the readable regular files, in listing order. *)
Definition digests (fs : filesystem) : list str :=
  flat_map (fun e => match file_digest (snd e) with
                     | Some d => [d]
                     | None => []
                     end) (entries fs).

Definition hex_chars : str := lit "0123456789abcdef".

(** Neither end of the string is one of the characters [cs]. *)
Definition trimmed (cs : str) (s : str) : Prop :=
  match s with
  | [] => True
  | c :: _ => in_chars c cs = false /\ in_chars (last s c) cs = false
  end.

(** A network that differs from [net] only in that every HEAD request
    fails. *)
Definition without_head (net : network) : network :=
  {| requests_head := fun _ => Raise RequestException;
     requests_get := requests_get net |}.

(** The request for [url] went through: the response passed the
    status and safety checks and its body is [body]. *)
Definition fetched (net : network) (url : str) (response : Response)
           (body : bytes) : Prop :=
  probe_headers net url = Ok tt
  /\ requests_get net url = Ok response
  /\ raise_for_status response = Ok tt
  /\ (exists message, is_safe_to_download url response = Ok (true, message))
  /\ content response = Ok body.

(** [fs'] is [fs] with one more entry, a regular file [n] holding
    [data], where [n] is a proper name that [fs] did not have. *)
Definition adds_file (fs fs' : filesystem) (n : str) (data : bytes) : Prop :=
  valid_name n = true
  /\ lookup n (entries fs) = None
  /\ fs' = with_new_file fs n data.

(** What one call can have done to the directory [fs], leaving [fs']
    and returning [ok]: nothing, with [False]; nothing, with [True], as
    the body was a duplicate; or one new file, complete with [True] or
    cut short by a failing write with [False]. *)
Definition download_effect (net : network) (url directory : str)
           (fs : filesystem) (ok : bool) (fs' : filesystem) : Prop :=
  (ok = false /\ fs' = fs)
  \/ (ok = true /\ fs' = fs
      /\ exists response body name,
          fetched net url response body
          /\ is_duplicate_image body directory fs = Ok (true, name))
  \/ (exists response body verdict n data,
        fetched net url response body
        /\ is_duplicate_image body directory fs = Ok (false, verdict)
        /\ adds_file fs fs' n data
        /\ ((ok = true /\ on_write fs = NoWriteFault /\ data = body)
            \/ (ok = false
                /\ exists k, on_write fs = WriteFails k
                             /\ data = firstn k body))).

(** A response that proposes another name in its content-disposition. *)
Definition renaming_response : Response :=
  {| status_code := 200;
     response_headers :=
       [(lit "Content-Type", lit "image/gif");
        (lit "Content-Disposition", lit "attachment; filename=other.gif")];
     content := Ok (bytes_of "abc") |}.

(** A server that answers every request with status 404. *)
Definition not_found : network :=
  serve {| status_code := 404;
           response_headers := [(lit "Content-Type", lit "image/png")];
           content := Ok (bytes_of "abc") |}.

(** A network whose HEAD requests are refused with status 405. *)
Definition head_refused : network :=
  {| requests_head := fun _ =>
       Ok {| status_code := 405; response_headers := []; content := Ok [] |};
     requests_get := fun _ => Ok (respond "image/png" "3" "abc") |}.

(** * Properties *)

(** ** The MD5 model on the RFC 1321 test suite *)

Example md5_empty :
  MD5.hexdigest (MD5.md5 (bytes_of "")) = lit "d41d8cd98f00b204e9800998ecf8427e".
Proof. vm_compute. reflexivity. Qed.

Example md5_abc :
  MD5.hexdigest (MD5.md5 (bytes_of "abc"))
  = lit "900150983cd24fb0d6963f7d28e17f72".
Proof. vm_compute. reflexivity. Qed.

Example md5_alphanumeric :
  MD5.hexdigest
    (MD5.md5 (bytes_of
       "ABCDEFGHIJKLMNOPQRSTUVWXYZabcdefghijklmnopqrstuvwxyz0123456789"))
  = lit "d174ab98d277d9f5a5611c2c9f419d9f".
Proof. vm_compute. reflexivity. Qed.

(** ** [int] and [urlparse] on sample inputs *)

Example int_literals :
  python_int (lit " +1_000 ") = Some 1000%Z
  /\ python_int (lit "-12") = Some (-12)%Z
  /\ python_int (lit "1__0") = None
  /\ python_int (lit "1e6") = None
  /\ python_int (lit "") = None.
Proof. vm_compute. repeat split. Qed.

Example int_max_str_digits_cap :
  (exists n, python_int (repeat "9"%char 4300) = Some n)
  /\ python_int (repeat "9"%char 4301) = None
  /\ python_int ("-"%char :: repeat "0"%char 4300 ++ lit "7") = None
  /\ (exists n, python_int (repeat "0"%char 4299 ++ lit "_7") = Some n).
Proof.
  split; [eexists; vm_compute; reflexivity|].
  split; [vm_compute; reflexivity|].
  split; [vm_compute; reflexivity|].
  eexists; vm_compute; reflexivity.
Qed.

Example urlparse_bracketed_hosts :
  urlparse_path (lit "http://[::1]:8080/a.png") = Ok (lit "/a.png")
  /\ urlparse_path (lit "http://[::ffff:1.2.3.4]/cat.png") = Ok (lit "/cat.png")
  /\ urlparse_path (lit "http://u@[fe80::1%25eth0]/cat.png;x") = Ok (lit "/cat.png")
  /\ urlparse_path (lit "http://[v1.x]/cat.png") = Ok (lit "/cat.png")
  /\ urlparse_path (lit "http://[x]/cat.png") = Raise ValueError
  /\ urlparse_path (lit "http://[1.2.3.4]/cat.png") = Raise ValueError
  /\ urlparse_path (lit "http://[::1/cat.png") = Raise ValueError.
Proof. vm_compute. repeat split. Qed.

(** ** Streaming and whole-file hashing *)

Lemma chunk_size_pos : 0 < chunk_size.
Proof. apply Nat.lt_0_succ. Qed.

Lemma hash_chunks_step f h :
  hash_chunks f h =
  match read chunk_size f with
  | Raise e => Raise e
  | Ok ([], _) => Ok h
  | Ok (b :: chunk, f') => hash_chunks f' (MD5.update h (b :: chunk))
  end.
Proof.
  funelim (hash_chunks f h); try rewrite <- Heqcall; clear Heqcall;
    match goal with H : read _ _ = _ |- _ => rewrite H end; reflexivity.
Qed.

Lemma update_app st a b :
  MD5.update st (a ++ b) = MD5.update (MD5.update st a) b.
Proof. unfold MD5.update. apply fold_left_app. Qed.

Lemma reads_fail_step k len :
  0 < len ->
  reads_fail (Some (S k)) len = reads_fail (Some k) (len - chunk_size).
Proof.
  intros Hlen. pose proof chunk_size_pos as Hpos. unfold reads_fail.
  replace (S k =? 0) with false by reflexivity.
  replace (S k - 1) with k by lia.
  cbn [orb].
  destruct k as [|j].
  - cbn [Nat.eqb orb Nat.mul]. apply Nat.ltb_lt. exact Hlen.
  - replace (S j =? 0) with false by reflexivity.
    replace (S j - 1) with j by lia.
    cbn [orb]. rewrite Nat.mul_succ_l.
    destruct (Nat.ltb_spec (j * chunk_size + chunk_size) len),
             (Nat.ltb_spec (j * chunk_size) (len - chunk_size));
      try reflexivity; lia.
Qed.

Lemma firstn_chunk_nonempty (b : byte) d : firstn chunk_size (b :: d) <> [].
Proof.
  pose proof chunk_size_pos as Hpos. intros E.
  apply (f_equal (@length byte)) in E. rewrite length_firstn in E.
  cbn [length] in E. lia.
Qed.

Lemma hash_chunks_spec n : forall data r h,
  length data <= n ->
  hash_chunks {| remaining := data; reads_left := r |} h =
  if reads_fail r (length data) then Raise IOError
  else Ok (MD5.update h data).
Proof.
  pose proof chunk_size_pos as Hpos.
  induction n as [|n IH]; intros data r h Hn.
  - destruct data; [|cbn [length] in Hn; lia].
    rewrite hash_chunks_step. unfold read. cbn [reads_left remaining].
    rewrite firstn_nil. destruct r as [[|k]|]; reflexivity.
  - rewrite hash_chunks_step. unfold read. cbn [reads_left remaining].
    destruct r as [[|k]|]; [reflexivity| |].
    + cbn [option_map Nat.pred].
      destruct data as [|b d].
      * rewrite firstn_nil. reflexivity.
      * destruct (firstn chunk_size (b :: d)) as [|c0 c] eqn:E.
        { exfalso. exact (firstn_chunk_nonempty b d E). }
        rewrite IH by (rewrite length_skipn; cbn [length] in *; lia).
        rewrite length_skipn, <- E, <- update_app, firstn_skipn.
        rewrite reads_fail_step by (cbn [length]; lia). reflexivity.
    + cbn [option_map].
      destruct data as [|b d].
      * rewrite firstn_nil. reflexivity.
      * destruct (firstn chunk_size (b :: d)) as [|c0 c] eqn:E.
        { exfalso. exact (firstn_chunk_nonempty b d E). }
        rewrite IH by (rewrite length_skipn; cbn [length] in *; lia).
        rewrite <- E, <- update_app, firstn_skipn. reflexivity.
Qed.

Lemma calculate_file_hash_stat directory fs filepath :
  calculate_file_hash directory fs filepath =
  Ok match stat directory fs filepath with
     | Some x => file_digest x
     | None => None
     end.
Proof.
  unfold calculate_file_hash, open_rb.
  destruct (stat directory fs filepath) as [[data [| |k]| |]|]; try reflexivity.
  - cbn [bind]. rewrite (hash_chunks_spec (length data)) by lia.
    reflexivity.
  - cbn [bind]. rewrite (hash_chunks_spec (length data)) by lia.
    cbn [file_digest read_fails].
    destruct (reads_fail (Some k) (length data)); reflexivity.
Qed.

(** ** Strings and paths *)

Lemma str_eqb_eq a b : str_eqb a b = true <-> a = b.
Proof.
  unfold str_eqb. destruct (list_eq_dec ascii_dec a b); split; congruence.
Qed.

Lemma str_eqb_refl a : str_eqb a a = true.
Proof. apply str_eqb_eq. reflexivity. Qed.

Lemma in_chars_In c cs : in_chars c cs = true <-> In c cs.
Proof.
  unfold in_chars. rewrite existsb_exists. split.
  - intros [x [Hx Heq]]. apply Ascii.eqb_eq in Heq. subst. exact Hx.
  - intros H. exists c. split; [exact H | apply Ascii.eqb_refl].
Qed.

Lemma in_chars_app c a b : in_chars c (a ++ b) = in_chars c a || in_chars c b.
Proof. unfold in_chars. apply existsb_app. Qed.

Lemma strip_prefix_app p s : strip_prefix p (p ++ s) = Some s.
Proof.
  induction p as [|a p IH]; [reflexivity|].
  cbn. rewrite Ascii.eqb_refl. exact IH.
Qed.

Lemma strip_prefix_Some p s r : strip_prefix p s = Some r -> s = p ++ r.
Proof.
  revert s. induction p as [|a p IH]; intros s H.
  - cbn in H. injection H as ->. reflexivity.
  - destruct s as [|b s]; [discriminate|]. cbn in H.
    destruct (Ascii.eqb_spec a b); [|discriminate].
    subst. cbn. f_equal. apply IH. exact H.
Qed.

Lemma no_slash_not_absolute n :
  in_chars "/"%char n = false -> startswith (lit "/") n = false.
Proof.
  destruct n as [|c n]; [reflexivity|].
  cbn. destruct (Ascii.eqb_spec "/"%char c) as [<-|]; [discriminate|reflexivity].
Qed.

Lemma join_prefix directory n :
  startswith (lit "/") n = false ->
  join directory n = join directory [] ++ n.
Proof.
  intros Hn. unfold join. rewrite Hn.
  replace (startswith (lit "/") []) with false by reflexivity.
  destruct ((match directory with [] => true | _ => false end)
            || endswith (lit "/") directory).
  - rewrite app_nil_r. reflexivity.
  - rewrite app_nil_r, <- app_assoc. reflexivity.
Qed.

Lemma entry_name_join directory n :
  startswith (lit "/") n = false ->
  entry_name directory (join directory n) = Some n.
Proof.
  intros Hn. unfold entry_name. rewrite (join_prefix directory n Hn).
  apply strip_prefix_app.
Qed.

Lemma lookup_distinct l : forall n x,
  distinct (map fst l) = true -> In (n, x) l -> lookup n l = Some x.
Proof.
  induction l as [|[m y] l IH]; intros n x Hd Hin; [contradiction|].
  cbn in Hd. apply andb_true_iff in Hd. destruct Hd as [Hm Hd].
  cbn. destruct Hin as [Heq|Hin].
  - injection Heq as -> ->. rewrite str_eqb_refl. reflexivity.
  - destruct (str_eqb m n) eqn:E.
    + apply str_eqb_eq in E. subst m.
      apply negb_true_iff in Hm.
      assert (existsb (str_eqb n) (map fst l) = true) as Hex.
      { apply existsb_exists. exists n. split; [|apply str_eqb_refl].
        apply in_map_iff. exists (n, x). split; [reflexivity|exact Hin]. }
      congruence.
    + apply IH; assumption.
Qed.

Lemma lookup_In n l x : lookup n l = Some x -> In (n, x) l.
Proof.
  induction l as [|[m y] l IH]; [discriminate|].
  cbn. destruct (str_eqb m n) eqn:E.
  - apply str_eqb_eq in E. intros [= ->]. subst. left. reflexivity.
  - intros H. right. apply IH. exact H.
Qed.

Lemma stat_entry directory fs n x :
  wf_fs fs = true -> In (n, x) (entries fs) ->
  stat directory fs (join directory n) = Some x.
Proof.
  intros Hwf Hin. unfold wf_fs in Hwf.
  apply andb_true_iff in Hwf. destruct Hwf as [Hvalid Hdist].
  rewrite forallb_forall in Hvalid.
  assert (valid_name n = true) as Hn.
  { apply Hvalid. unfold os_listdir. apply in_map_iff.
    exists (n, x). split; [reflexivity|exact Hin]. }
  unfold valid_name in Hn. apply andb_true_iff in Hn.
  destruct Hn as [Hslash Hdot].
  apply negb_true_iff in Hslash. apply negb_true_iff in Hdot.
  unfold stat. rewrite (entry_name_join directory n (no_slash_not_absolute n Hslash)).
  rewrite Hdot. apply lookup_distinct; assumption.
Qed.

(** ** The duplicate scan *)

Lemma hash_eqb_Some h d : hash_eqb h d = true <-> h = Some d.
Proof.
  destruct h as [a|]; cbn.
  - rewrite str_eqb_eq. split; congruence.
  - split; discriminate.
Qed.

Lemma scan_directory_find directory fs d l :
  (forall n x, In (n, x) l -> stat directory fs (join directory n) = Some x) ->
  scan_directory directory fs d (map fst l) =
  Ok match find (digest_matches d) l with
     | Some e => (true, Some (fst e))
     | None => (false, None)
     end.
Proof.
  induction l as [|[n x] l IH]; intros Hstat; [reflexivity|].
  assert (stat directory fs (join directory n) = Some x) as Hn
      by (apply Hstat; left; reflexivity).
  assert (scan_directory directory fs d (map fst l) =
          Ok match find (digest_matches d) l with
             | Some e => (true, Some (fst e))
             | None => (false, None)
             end) as IH'
      by (apply IH; intros; apply Hstat; right; assumption).
  cbn [map fst scan_directory find]. unfold os_path_isfile. rewrite Hn.
  rewrite calculate_file_hash_stat, Hn. unfold digest_matches at 1. cbn [snd fst].
  destruct x as [data fault| |].
  - cbn [bind]. destruct (hash_eqb (file_digest (RegularFile data fault)) d);
      [reflexivity|exact IH'].
  - cbn [file_digest hash_eqb]. exact IH'.
  - cbn [file_digest hash_eqb]. exact IH'.
Qed.

Lemma is_duplicate_image_find content directory fs :
  wf_fs fs = true ->
  is_duplicate_image content directory fs =
  Ok match find (digest_matches (MD5.hexdigest (MD5.md5 content))) (entries fs) with
     | Some e => (true, Some (fst e))
     | None => (false, None)
     end.
Proof.
  intros Hwf. unfold is_duplicate_image, os_listdir.
  apply scan_directory_find. intros n x Hin.
  apply stat_entry; assumption.
Qed.

(** C2: [is_duplicate_image] reports a duplicate, with the name of a
    matching file, exactly when some regular file of the directory has
    the digest of the content, whatever that file is called; otherwise it
    returns [(False, None)] after going through every entry. *)
Theorem is_duplicate_image_correct content directory fs :
  wf_fs fs = true -> duplicate_scan_correct content directory fs.
Proof.
  intros Hwf. unfold duplicate_scan_correct. cbv zeta.
  rewrite (is_duplicate_image_find content directory fs Hwf).
  set (d := MD5.hexdigest (MD5.md5 content)).
  destruct (find (digest_matches d) (entries fs)) as [[n x]|] eqn:Hfind.
  - apply find_some in Hfind. destruct Hfind as [Hin Hm].
    unfold digest_matches in Hm. cbn [snd] in Hm. apply hash_eqb_Some in Hm.
    cbn [fst]. repeat split.
    + intros _. exists n. reflexivity.
    + intros _. exists n, x. split; assumption.
    + intros name [= <-]. exists x. split; assumption.
    + intros Hnone. exfalso. exact (Hnone n x Hin Hm).
  - repeat split.
    + intros [n [x [Hin Hm]]]. exfalso.
      pose proof (find_none _ _ Hfind (n, x) Hin) as Hno.
      unfold digest_matches in Hno. cbn [snd] in Hno.
      apply hash_eqb_Some in Hm. congruence.
    + intros [name Hname]. discriminate.
    + intros name Hname. discriminate.
Qed.

Lemma is_duplicate_image_correct_witness :
  wf_fs sample_fs = true
  /\ duplicate_scan_correct (bytes_of "abc") sample_dir sample_fs.
Proof.
  split.
  - vm_compute. reflexivity.
  - apply (is_duplicate_image_correct (bytes_of "abc") sample_dir sample_fs).
    vm_compute. reflexivity.
Defined.

Lemma hash_chunks_raises_IOError f h e :
  hash_chunks f h = Raise e -> e = IOError.
Proof.
  destruct f as [data r].
  rewrite (hash_chunks_spec (length data)) by lia.
  destruct (reads_fail r (length data)); congruence.
Qed.

Lemma scan_directory_returns directory fs new_hash names :
  exists verdict, scan_directory directory fs new_hash names = Ok verdict.
Proof.
  induction names as [|n names IH].
  - eexists. reflexivity.
  - cbn [scan_directory]. rewrite calculate_file_hash_stat. cbn [bind].
    destruct (os_path_isfile directory fs (join directory n)); [|apply IH].
    destruct (hash_eqb _ new_hash); [eexists; reflexivity|apply IH].
Qed.

Lemma unreadable_has_no_hash directory fs filepath e :
  (f <- open_rb directory fs filepath ;; hash_chunks f MD5.new) = Raise e ->
  calculate_file_hash directory fs filepath = Ok None.
Proof.
  intros Hraise.
  rewrite calculate_file_hash_stat. unfold open_rb in Hraise.
  destruct (stat directory fs filepath)
    as [[data [| |k]| |]|]; try reflexivity; cbn [bind] in Hraise.
  - rewrite (hash_chunks_spec (length data)) in Hraise by lia.
    discriminate.
  - rewrite (hash_chunks_spec (length data)) in Hraise by lia.
    cbn [file_digest read_fails].
    destruct (reads_fail (Some k) (length data));
      [reflexivity|discriminate].
Qed.

Lemma scan_directory_skips directory fs new_hash filename rest e :
  (f <- open_rb directory fs (join directory filename) ;;
   hash_chunks f MD5.new) = Raise e ->
  scan_directory directory fs new_hash (filename :: rest)
  = scan_directory directory fs new_hash rest.
Proof.
  intros Hraise. cbn [scan_directory].
  rewrite (unreadable_has_no_hash _ _ _ e Hraise). cbn [bind hash_eqb].
  destruct (os_path_isfile directory fs (join directory filename));
    reflexivity.
Qed.

Lemma scan_directory_skips_all directory fs new_hash rest unreadable :
  (forall n, In n unreadable ->
     exists e, (f <- open_rb directory fs (join directory n) ;;
                hash_chunks f MD5.new) = Raise e) ->
  scan_directory directory fs new_hash (unreadable ++ rest)
  = scan_directory directory fs new_hash rest.
Proof.
  induction unreadable as [|n l IH]; intros Hall; [reflexivity|].
  destruct (Hall n (or_introl eq_refl)) as [e He].
  rewrite <- app_comm_cons, (scan_directory_skips _ _ _ _ _ e He).
  apply IH. intros m Hm. apply Hall. right. exact Hm.
Qed.

(** C8: whatever names the listing gives, the scan returns a verdict
    and never raises.  A file whose [open] or [read] raises gets no hash
    from [calculate_file_hash], and the scan goes on with the names after
    it as if the file were not listed.  So a readable file with the
    digest of the content is still reported when only unreadable files
    come before it, even if they hold the same bytes, and a listing of
    unreadable files alone gives [(False, None)]. *)
Theorem unreadable_file_is_skipped content directory fs :
  (forall new_hash names,
      exists verdict, scan_directory directory fs new_hash names = Ok verdict)
  /\ (forall new_hash filename rest e,
        (f <- open_rb directory fs (join directory filename) ;;
         hash_chunks f MD5.new) = Raise e ->
        calculate_file_hash directory fs (join directory filename) = Ok None
        /\ scan_directory directory fs new_hash (filename :: rest)
           = scan_directory directory fs new_hash rest)
  /\ (forall unreadable filename rest,
        os_listdir fs = unreadable ++ filename :: rest ->
        (forall n, In n unreadable ->
           exists e, (f <- open_rb directory fs (join directory n) ;;
                      hash_chunks f MD5.new) = Raise e) ->
        os_path_isfile directory fs (join directory filename) = true ->
        calculate_file_hash directory fs (join directory filename)
        = Ok (Some (MD5.hexdigest (MD5.md5 content))) ->
        is_duplicate_image content directory fs = Ok (true, Some filename))
  /\ ((forall n, In n (os_listdir fs) ->
         exists e, (f <- open_rb directory fs (join directory n) ;;
                    hash_chunks f MD5.new) = Raise e) ->
      is_duplicate_image content directory fs = Ok (false, None)).
Proof.
  split; [intros new_hash names; apply scan_directory_returns|].
  split; [|split].
  - intros new_hash filename rest e Hraise. split.
    + exact (unreadable_has_no_hash _ _ _ e Hraise).
    + exact (scan_directory_skips _ _ _ _ _ e Hraise).
  - intros unreadable filename rest Hlist Hall Hfile Hhash.
    unfold is_duplicate_image. rewrite Hlist.
    rewrite (scan_directory_skips_all _ _ _ _ _ Hall).
    cbn [scan_directory]. rewrite Hfile, Hhash. cbn [bind hash_eqb].
    rewrite str_eqb_refl. reflexivity.
  - intros Hall. unfold is_duplicate_image.
    rewrite <- (app_nil_r (os_listdir fs)).
    rewrite (scan_directory_skips_all _ _ _ _ _ Hall). reflexivity.
Qed.

Lemma unreadable_file_is_skipped_witness :
  (f <- open_rb sample_dir sample_fs (join sample_dir (lit "locked.png")) ;;
   hash_chunks f MD5.new) = Raise IOError
  /\ (calculate_file_hash sample_dir sample_fs
        (join sample_dir (lit "locked.png")) = Ok None
      /\ scan_directory sample_dir sample_fs
           (MD5.hexdigest (MD5.md5 (bytes_of "abc")))
           [lit "locked.png"; lit "cat.jpeg"]
         = scan_directory sample_dir sample_fs
             (MD5.hexdigest (MD5.md5 (bytes_of "abc"))) [lit "cat.jpeg"])
  /\ is_duplicate_image (bytes_of "abc") sample_dir sample_fs
     = Ok (true, Some (lit "cat.jpeg"))
  /\ is_duplicate_image (bytes_of "abc") sample_dir locked_fs
     = Ok (false, None).
Proof.
  split; [vm_compute; reflexivity|].
  split; [|split].
  - apply (proj1 (proj2 (unreadable_file_is_skipped
                           (bytes_of "abc") sample_dir sample_fs))
             (MD5.hexdigest (MD5.md5 (bytes_of "abc")))
             (lit "locked.png") [lit "cat.jpeg"] IOError).
    vm_compute. reflexivity.
  - apply (proj1 (proj2 (proj2 (unreadable_file_is_skipped
                                  (bytes_of "abc") sample_dir sample_fs)))
             [lit "notes"; lit "locked.png"] (lit "cat.jpeg") []).
    + reflexivity.
    + intros n [<-|[<-|[]]]; exists IOError; vm_compute; reflexivity.
    + vm_compute. reflexivity.
    + vm_compute. reflexivity.
  - apply (proj2 (proj2 (proj2 (unreadable_file_is_skipped
                                  (bytes_of "abc") sample_dir locked_fs)))).
    intros n [<-|[<-|[]]]; exists IOError; vm_compute; reflexivity.
Defined.

(** C9: hashing a file by reading it in 4096-byte chunks gives the
    digest of the whole byte sequence hashed at once. *)
Theorem chunked_hash_equals_whole directory fs filepath data :
  stat directory fs filepath = Some (RegularFile data NoFault) ->
  hash_chunks {| remaining := data; reads_left := None |} MD5.new
  = Ok (MD5.md5 data)
  /\ calculate_file_hash directory fs filepath
     = Ok (Some (MD5.hexdigest (MD5.md5 data))).
Proof.
  intros Hstat. split.
  - rewrite (hash_chunks_spec (length data)) by lia. reflexivity.
  - rewrite calculate_file_hash_stat, Hstat. reflexivity.
Qed.

Lemma chunked_hash_equals_whole_witness :
  stat sample_dir long_fs (join sample_dir (lit "long.bin"))
  = Some (RegularFile long_file NoFault)
  /\ hash_chunks {| remaining := long_file; reads_left := None |} MD5.new
     = Ok (MD5.md5 long_file)
  /\ calculate_file_hash sample_dir long_fs (join sample_dir (lit "long.bin"))
     = Ok (Some (MD5.hexdigest (MD5.md5 long_file))).
Proof.
  split.
  - vm_compute. reflexivity.
  - apply (chunked_hash_equals_whole sample_dir long_fs
             (join sample_dir (lit "long.bin")) long_file).
    vm_compute. reflexivity.
Defined.

(** ** [rfind] and [splitext] *)

Lemma rfind_bounds c s : (-1 <= rfind c s < Z.of_nat (length s))%Z.
Proof.
  induction s as [|x t IH]; cbn [rfind length]; [lia|].
  destruct (Z.leb_spec 0 (rfind c t)); [lia|].
  destruct (Ascii.eqb x c); lia.
Qed.

Lemma rfind_absent c s : in_chars c s = false -> rfind c s = (-1)%Z.
Proof.
  induction s as [|x t IH]; [reflexivity|].
  unfold in_chars. cbn [existsb rfind]. intros H.
  apply orb_false_iff in H. destruct H as [Hx Ht].
  rewrite (IH Ht). cbn.
  destruct (Ascii.eqb_spec x c) as [->|]; [|reflexivity].
  rewrite Ascii.eqb_refl in Hx. discriminate.
Qed.

Lemma rfind_app c a b :
  rfind c (a ++ b) =
  if (0 <=? rfind c b)%Z then (Z.of_nat (length a) + rfind c b)%Z
  else rfind c a.
Proof.
  induction a as [|x a IH].
  - cbn [app length rfind]. pose proof (rfind_bounds c b).
    destruct (Z.leb_spec 0 (rfind c b)); lia.
  - cbn [app length rfind]. rewrite IH.
    pose proof (rfind_bounds c b).
    destruct (Z.leb_spec 0 (rfind c b)).
    + destruct (Z.leb_spec 0 (Z.of_nat (length a) + rfind c b)); lia.
    + reflexivity.
Qed.

Lemma endswith_slash s :
  endswith (lit "/") s = true -> exists s', s = s' ++ lit "/".
Proof.
  unfold endswith. cbn [lit list_ascii_of_string rev app].
  destruct (rev s) as [|x r] eqn:E; [discriminate|].
  cbn [startswith]. intros H. apply andb_true_iff in H. destruct H as [H _].
  apply Ascii.eqb_eq in H. subst x.
  exists (rev r). rewrite <- (rev_involutive s), E. reflexivity.
Qed.

(** The prefix [os.path.join] puts before a relative name is empty or
    ends with the separator. *)
Lemma join_empty_cases directory :
  join directory [] = [] \/ exists d, join directory [] = d ++ lit "/".
Proof.
  unfold join. replace (startswith (lit "/") []) with false by reflexivity.
  destruct directory as [|c d]; [left; reflexivity|].
  cbn [orb]. destruct (endswith (lit "/") (c :: d)) eqn:E.
  - right. apply endswith_slash in E. destruct E as [s' E].
    exists s'. rewrite app_nil_r. exact E.
  - right. exists (c :: d). rewrite app_nil_r. reflexivity.
Qed.

Lemma rfind_slash_prefix P :
  P = [] \/ (exists d, P = d ++ lit "/") ->
  rfind "/"%char P = (Z.of_nat (length P) - 1)%Z.
Proof.
  intros [->|[d ->]]; [reflexivity|].
  rewrite rfind_app, length_app. cbn [lit list_ascii_of_string rfind length].
  rewrite Ascii.eqb_refl. cbn. lia.
Qed.

Lemma splitext_prefixed P f :
  P = [] \/ (exists d, P = d ++ lit "/") ->
  in_chars "/"%char f = false ->
  splitext (P ++ f) = (P ++ fst (splitext f), snd (splitext f)).
Proof.
  intros HP Hf. unfold splitext.
  rewrite !rfind_app, (rfind_absent _ _ Hf), (rfind_slash_prefix P HP).
  replace (0 <=? -1)%Z with false by reflexivity.
  pose proof (rfind_bounds "."%char f) as Hd.
  pose proof (rfind_bounds "."%char P) as HdP.
  destruct (Z.leb_spec 0 (rfind "."%char f)) as [Hpos|Hneg].
  - set (d := rfind "."%char f) in *.
    replace (Z.of_nat (length P) - 1 <? Z.of_nat (length P) + d)%Z with true
      by (symmetry; apply Z.ltb_lt; lia).
    replace (-1 <? d)%Z with true by (symmetry; apply Z.ltb_lt; lia).
    replace (Z.of_nat (length P) + d - (Z.of_nat (length P) - 1 + 1))%Z with d by lia.
    replace (Z.of_nat (length P) - 1 + 1)%Z with (Z.of_nat (length P)) by lia.
    replace (d - (-1 + 1))%Z with d by lia.
    replace (-1 + 1)%Z with 0%Z by lia.
    unfold slice_to, slice_from. rewrite Nat2Z.id.
    replace (Z.to_nat (Z.of_nat (length P) + d)) with (length P + Z.to_nat d)
      by lia.
    rewrite !skipn_app, skipn_all, Nat.sub_diag, firstn_app_2.
    rewrite (skipn_all2 P) by lia.
    replace (length P + Z.to_nat d - length P) with (Z.to_nat d) by lia.
    change (Z.to_nat 0) with 0. cbn [app skipn].
    destruct (existsb (fun c => negb (Ascii.eqb c "."%char))
                      (firstn (Z.to_nat d) f));
      reflexivity.
  - replace (Z.of_nat (length P) - 1 <? rfind "."%char P)%Z with false
      by (symmetry; apply Z.ltb_ge; lia).
    replace (-1 <? rfind "."%char f)%Z with false
      by (symmetry; apply Z.ltb_ge; lia).
    reflexivity.
Qed.

(** The stem [splitext] returns is an initial segment of the path. *)
Lemma splitext_stem p : exists n, fst (splitext p) = firstn n p.
Proof.
  unfold splitext.
  destruct (rfind "/"%char p <? rfind "."%char p)%Z.
  - destruct (existsb _ _).
    + eexists. reflexivity.
    + exists (length p). rewrite firstn_all. reflexivity.
  - exists (length p). rewrite firstn_all. reflexivity.
Qed.

(** ** Decimal counters *)

Lemma str_of_nat_inj a b : str_of_nat a = str_of_nat b -> a = b.
Proof.
  unfold str_of_nat. intros H.
  apply (f_equal string_of_list_ascii) in H.
  rewrite !string_of_list_ascii_of_string in H.
  apply (f_equal NilEmpty.uint_of_string) in H.
  rewrite !NilEmpty.usu in H. injection H as H.
  apply Unsigned.to_uint_inj. exact H.
Qed.

Lemma candidate_inj p a b : candidate p a = candidate p b -> a = b.
Proof.
  unfold candidate. destruct (splitext p) as [name ext]. intros H.
  apply app_inv_head in H. apply app_inv_head in H.
  apply app_inv_tail in H. apply str_of_nat_inj. exact H.
Qed.

Lemma numbered_relative f n :
  in_chars "/"%char f = false -> startswith (lit "/") (numbered f n) = false.
Proof.
  intros Hf. unfold numbered.
  destruct (splitext_stem f) as [k Hk].
  destruct (splitext f) as [stem ext]. cbn [fst] in Hk. subst stem.
  destruct f as [|c f]; [rewrite firstn_nil; reflexivity|].
  destruct k as [|k]; [reflexivity|].
  cbn [firstn app lit list_ascii_of_string startswith].
  unfold in_chars in Hf. cbn [existsb] in Hf.
  apply orb_false_iff in Hf. destruct Hf as [Hc _]. rewrite Hc. reflexivity.
Qed.

Lemma candidate_join directory f n :
  in_chars "/"%char f = false ->
  candidate (join directory f) n = join directory (numbered f n).
Proof.
  intros Hf.
  rewrite (join_prefix directory f (no_slash_not_absolute f Hf)).
  rewrite (join_prefix directory (numbered f n) (numbered_relative f n Hf)).
  unfold candidate, numbered.
  rewrite (splitext_prefixed (join directory []) f (join_empty_cases directory) Hf).
  destruct (splitext f) as [stem ext]. cbn [fst snd].
  rewrite <- app_assoc. reflexivity.
Qed.

(** ** The conflict loop *)

Lemma exists_name directory fs p :
  os_path_exists directory fs p = true ->
  exists n, p = join directory [] ++ n /\ In n (existing_names fs).
Proof.
  unfold os_path_exists, stat, entry_name.
  destruct (strip_prefix (join directory []) p) as [n|] eqn:E; [|discriminate].
  apply strip_prefix_Some in E. intros H. exists n. split; [exact E|].
  unfold existing_names. apply in_or_app.
  destruct (existsb (str_eqb n) dot_names) eqn:Hd.
  - left. apply existsb_exists in Hd. destruct Hd as [x [Hx Heq]].
    apply str_eqb_eq in Heq. subst x. exact Hx.
  - right. destruct (lookup n (entries fs)) as [x|] eqn:L; [|discriminate].
    apply lookup_In in L. unfold os_listdir. apply in_map_iff.
    exists (n, x). split; [reflexivity|exact L].
Qed.

(** Pigeonhole: a run of consecutive candidates that all exist is no
    longer than the list of existing names. *)
Lemma occupied_run_bound directory fs p c m :
  (forall k, c <= k < c + m ->
             os_path_exists directory fs (candidate p k) = true) ->
  m <= length (existing_names fs).
Proof.
  intros Hall.
  set (P := join directory []).
  set (L := map (fun k => skipn (length P) (candidate p k)) (seq c m)).
  assert (forall k, c <= k < c + m ->
            candidate p k = P ++ skipn (length P) (candidate p k)
            /\ In (skipn (length P) (candidate p k)) (existing_names fs))
    as Hname.
  { intros k Hk. destruct (exists_name directory fs _ (Hall k Hk)) as [n [Hp Hin]].
    fold P in Hp. rewrite Hp.
    rewrite skipn_app, skipn_all, Nat.sub_diag. cbn [app skipn].
    split; [reflexivity|exact Hin]. }
  assert (NoDup L) as Hnodup.
  { unfold L. apply NoDup_map_NoDup_ForallPairs; [|apply seq_NoDup].
    intros a b Ha Hb Heq. apply in_seq in Ha. apply in_seq in Hb.
    apply (candidate_inj p).
    rewrite (proj1 (Hname a Ha)), (proj1 (Hname b Hb)), Heq. reflexivity. }
  assert (incl L (existing_names fs)) as Hincl.
  { intros n Hn. unfold L in Hn. apply in_map_iff in Hn.
    destruct Hn as [k [<- Hk]]. apply in_seq in Hk.
    apply (proj2 (Hname k Hk)). }
  pose proof (NoDup_incl_length Hnodup Hincl) as Hlen.
  unfold L in Hlen. rewrite length_map, length_seq in Hlen. exact Hlen.
Qed.

Lemma bounded_search (free : nat -> bool) c m :
  (forall k, c <= k < c + m -> free k = false)
  \/ (exists k, c <= k < c + m /\ free k = true).
Proof.
  induction m as [|m IH].
  - left. intros k Hk. lia.
  - destruct IH as [Hall|[k [Hk Hfree]]].
    + destruct (free (c + m)) eqn:E.
      * right. exists (c + m). split; [lia|exact E].
      * left. intros k Hk.
        destruct (Nat.eq_dec k (c + m)) as [->|]; [exact E|].
        apply Hall. lia.
    + right. exists k. split; [lia|exact Hfree].
Qed.

Lemma free_candidate_exists directory fs p c :
  exists k, c <= k < c + (length (entries fs) + 4)
            /\ os_path_exists directory fs (candidate p k) = false.
Proof.
  destruct (bounded_search
              (fun k => negb (os_path_exists directory fs (candidate p k)))
              c (length (entries fs) + 4)) as [Hall|[k [Hk Hfree]]].
  - exfalso.
    assert (length (entries fs) + 4 <= length (existing_names fs)) as Hle.
    { apply (occupied_run_bound directory fs p c). intros k Hk.
      specialize (Hall k Hk). apply negb_false_iff in Hall. exact Hall. }
    unfold existing_names, os_listdir in Hle.
    rewrite length_app, length_map in Hle. cbn in Hle. lia.
  - exists k. split; [exact Hk|]. apply negb_true_iff in Hfree. exact Hfree.
Qed.

Lemma conflict_loop_step fuel directory fs p filepath c :
  conflict_loop (S fuel) directory fs p filepath c =
  if os_path_exists directory fs filepath
  then conflict_loop fuel directory fs p (candidate p c) (c + 1)
  else Some filepath.
Proof.
  cbn [conflict_loop]. unfold candidate.
  destruct (splitext p) as [name ext]. reflexivity.
Qed.

Lemma conflict_loop_free fuel directory fs p filepath c :
  os_path_exists directory fs filepath = false ->
  conflict_loop fuel directory fs p filepath c = Some filepath.
Proof.
  intros H. destruct fuel; cbn [conflict_loop]; rewrite H; reflexivity.
Qed.

Lemma conflict_loop_occupied fuel : forall directory fs p filepath c,
  os_path_exists directory fs filepath = true ->
  (exists k, c <= k < c + fuel
             /\ os_path_exists directory fs (candidate p k) = false) ->
  exists n, first_free directory fs p c n
            /\ conflict_loop fuel directory fs p filepath c
               = Some (candidate p n).
Proof.
  induction fuel as [|fuel IH]; intros directory fs p filepath c Hocc [k [Hk Hfree]].
  - lia.
  - rewrite conflict_loop_step, Hocc.
    destruct (os_path_exists directory fs (candidate p c)) eqn:Hc.
    + destruct (IH directory fs p (candidate p c) (c + 1) Hc) as [n [[Hn1 [Hn2 Hn3]] Hloop]].
      { exists k. split; [|exact Hfree].
        destruct (Nat.eq_dec k c) as [->|]; [congruence|lia]. }
      exists n. split; [|exact Hloop].
      split; [lia|]. split; [exact Hn2|].
      intros m Hm. destruct (Nat.eq_dec m c) as [->|]; [exact Hc|].
      apply Hn3. lia.
    + exists c. split.
      * split; [lia|]. split; [exact Hc|]. intros m Hm. lia.
      * apply conflict_loop_free. exact Hc.
Qed.

(** With the fuel [download_single_image] passes, the loop always ends,
    on a path that does not exist. *)
Lemma conflict_loop_terminates directory fs p :
  exists q, conflict_loop (length (entries fs) + 4) directory fs p p 1 = Some q
            /\ os_path_exists directory fs q = false.
Proof.
  destruct (os_path_exists directory fs p) eqn:Hp.
  - destruct (conflict_loop_occupied (length (entries fs) + 4) directory fs p p 1 Hp
                (free_candidate_exists directory fs p 1))
      as [n [[_ [Hn _]] Hloop]].
    exists (candidate p n). split; assumption.
  - exists p. split; [apply conflict_loop_free|]; exact Hp.
Qed.

(** ** Writing the new file *)

Lemma sanitized_no_slash filename :
  sanitized filename = true -> in_chars "/"%char filename = false.
Proof.
  unfold sanitized. intros H. rewrite forallb_forall in H.
  destruct (in_chars "/"%char filename) eqn:E; [|reflexivity].
  apply in_chars_In in E. specialize (H _ E). vm_compute in H. discriminate.
Qed.

Lemma write_file_fresh directory fs n content :
  on_write fs = NoWriteFault ->
  in_chars "/"%char n = false ->
  os_path_exists directory fs (join directory n) = false ->
  write_file directory (join directory n) content fs
  = (with_new_file fs n content, Ok tt).
Proof.
  intros Hw Hn Hfree. unfold write_file.
  unfold os_path_exists, stat in Hfree.
  rewrite (entry_name_join directory n (no_slash_not_absolute n Hn)) in *.
  destruct (existsb (str_eqb n) dot_names); [discriminate|].
  rewrite Hn, Hw. cbn [orb]. unfold store.
  destruct (lookup n (entries fs)); [discriminate|]. reflexivity.
Qed.

(** ** The pipeline *)

Section Pipeline.

Variable guess_extension : str -> option str.

(** Running the body up to the point where the response is known to be
    safe and its bytes are at hand. *)
Lemma download_body_fetched fuel net url directory fs response message body :
  probe_headers net url = Ok tt ->
  requests_get net url = Ok response ->
  raise_for_status response = Ok tt ->
  is_safe_to_download url response = Ok (true, message) ->
  content response = Ok body ->
  download_body guess_extension fuel net url directory fs
  = ('(is_dup, existing_filename) <~
        reading (is_duplicate_image body directory) ;;
     if is_dup : bool then ret (Some true)
     else
       r <~ reading (resolve_filepath guess_extension fuel url response
                                      directory) ;;
       match r with
       | None => ret None
       | Some filepath =>
           _ <~ write_file directory filepath body ;;
           ret (Some true)
       end) fs.
Proof.
  intros Hprobe Hget Hstatus Hsafe Hbody.
  unfold download_body, bindM at 1 2 3 4 5, lift.
  rewrite Hprobe, Hget, Hstatus, Hsafe. cbn [negb]. rewrite Hbody.
  reflexivity.
Qed.

Lemma download_body_returns fuel net url directory fs :
  length (entries fs) + 4 = fuel ->
  snd (download_body guess_extension fuel net url directory fs) <> Ok None.
Proof.
  intros <-. unfold download_body, bindM, lift, reading, ret.
  destruct (probe_headers net url); [|discriminate].
  destruct (requests_get net url) as [response|]; [|discriminate].
  destruct (raise_for_status response); [|discriminate].
  destruct (is_safe_to_download url response) as [[[|] message]|];
    cbn [negb]; try discriminate.
  destruct (content response) as [body|]; [|discriminate].
  destruct (is_duplicate_image body directory fs) as [[[|] existing]|];
    try discriminate.
  unfold resolve_filepath.
  destruct (get_filename_from_url guess_extension url response) as [filename|];
    cbn [bind]; [|discriminate].
  destruct (conflict_loop_terminates directory fs (join directory filename))
    as [q [Hq _]].
  rewrite Hq.
  destruct (write_file directory q body fs) as [fs' [[]|e]]; discriminate.
Qed.

Lemma download_returns net url directory fs :
  exists ok fs',
    download_single_image guess_extension net url directory fs = Some (ok, fs').
Proof.
  unfold download_single_image, download_single_image_fuel.
  pose proof (download_body_returns _ net url directory fs eq_refl) as H.
  destruct (download_body guess_extension _ net url directory fs)
    as [fs' [[ok|]|e]].
  - exists ok, fs'. reflexivity.
  - exfalso. apply H. reflexivity.
  - exists false, fs'. destruct (is_RequestException e); reflexivity.
Qed.

Lemma download_raise fuel net url directory fs fs' e :
  download_body guess_extension fuel net url directory fs = (fs', Raise e) ->
  download_single_image_fuel guess_extension fuel net url directory fs
  = Some (false, fs').
Proof.
  intros H. unfold download_single_image_fuel. rewrite H.
  destruct (is_RequestException e); reflexivity.
Qed.

Lemma process_urls_returns net directory urls : forall fs,
  exists outcomes fs',
    process_urls guess_extension net urls directory fs = Some (outcomes, fs')
    /\ length outcomes = length urls.
Proof.
  induction urls as [|url urls IH]; intros fs.
  - exists [], fs. split; reflexivity.
  - cbn [process_urls].
    destruct (download_returns net url directory fs) as [ok [fs1 H1]].
    rewrite H1.
    destruct (IH fs1) as [outcomes [fs2 [H2 Hlen]]]. rewrite H2.
    exists (ok :: outcomes), fs2. split; [reflexivity|].
    cbn [length]. rewrite Hlen. reflexivity.
Qed.

(** C7: whatever is raised while one URL is processed, transport
    failures included, is caught and [download_single_image] returns
    [False]; it always returns, and the batch loop reaches every URL. *)
Theorem download_single_image_catches_everything net url directory fs :
  (exists ok fs',
      download_single_image guess_extension net url directory fs
      = Some (ok, fs'))
  /\ (forall e fs',
        download_body guess_extension (length (entries fs) + 4)
                      net url directory fs = (fs', Raise e) ->
        download_single_image guess_extension net url directory fs
        = Some (false, fs'))
  /\ (forall e,
        requests_get net url = Raise e ->
        download_single_image guess_extension net url directory fs
        = Some (false, fs))
  /\ (forall urls, exists outcomes fs',
        process_urls guess_extension net urls directory fs
        = Some (outcomes, fs')
        /\ length outcomes = length urls).
Proof.
  split; [apply download_returns|].
  split; [intros e fs' H; exact (download_raise _ _ _ _ _ _ _ H)|].
  split; [|intros urls; apply process_urls_returns].
  intros e Hget. unfold download_single_image.
  destruct (probe_headers net url) as [[]|e'] eqn:Hprobe.
  - apply (download_raise _ net url directory fs fs e).
    unfold download_body, bindM, lift. rewrite Hprobe, Hget. reflexivity.
  - apply (download_raise _ net url directory fs fs e').
    unfold download_body, bindM, lift. rewrite Hprobe. reflexivity.
Qed.

(** C1: when the safety check rejects the response the pipeline
    returns [False], when the content duplicates an existing file it
    returns [True], and in both cases the directory is unchanged. *)
Theorem rejection_and_duplicate_write_nothing net url directory fs response :
  probe_headers net url = Ok tt ->
  requests_get net url = Ok response ->
  raise_for_status response = Ok tt ->
  (forall message,
      is_safe_to_download url response = Ok (false, message) ->
      download_single_image guess_extension net url directory fs
      = Some (false, fs))
  /\ (forall message body existing_filename,
        is_safe_to_download url response = Ok (true, message) ->
        content response = Ok body ->
        is_duplicate_image body directory fs = Ok (true, existing_filename) ->
        download_single_image guess_extension net url directory fs
        = Some (true, fs)).
Proof.
  intros Hprobe Hget Hstatus. split.
  - intros message Hsafe.
    unfold download_single_image, download_single_image_fuel, download_body.
    unfold bindM, lift. rewrite Hprobe, Hget, Hstatus, Hsafe. reflexivity.
  - intros message body existing Hsafe Hbody Hdup.
    unfold download_single_image, download_single_image_fuel.
    rewrite (download_body_fetched _ net url directory fs response message body
               Hprobe Hget Hstatus Hsafe Hbody).
    unfold bindM, reading. rewrite Hdup. reflexivity.
Qed.

End Pipeline.

(** ** Filename resolution *)

Lemma conflict_loop_numbered directory fs filename :
  sanitized filename = true ->
  os_path_exists directory fs (join directory filename) = true ->
  exists n,
    1 <= n
    /\ conflict_loop (length (entries fs) + 4) directory fs
                     (join directory filename) (join directory filename) 1
       = Some (join directory (numbered filename n))
    /\ os_path_exists directory fs (join directory (numbered filename n)) = false
    /\ (forall m, 1 <= m < n ->
          os_path_exists directory fs (join directory (numbered filename m))
          = true).
Proof.
  intros Hsafe Hocc.
  pose proof (sanitized_no_slash filename Hsafe) as Hslash.
  destruct (conflict_loop_occupied (length (entries fs) + 4) directory fs
              (join directory filename) (join directory filename) 1 Hocc
              (free_candidate_exists directory fs (join directory filename) 1))
    as [n [[Hn [Hfree Hbelow]] Hloop]].
  exists n. rewrite <- (candidate_join directory filename n Hslash).
  repeat split; try assumption.
  intros m Hm. rewrite <- (candidate_join directory filename m Hslash).
  apply Hbelow. exact Hm.
Qed.

Section Resolution.

Variable guess_extension : str -> option str.

(** C6: when the candidate's path is taken, the conflict loop yields
    the candidate with [_<n>] right before its extension, for the least
    [n >= 1] whose path is free; a second resource resolving to
    [image.jpg] is written as [image_1.jpg]. *)
Theorem conflict_loop_numbers_before_extension directory fs filename :
  sanitized filename = true ->
  os_path_exists directory fs (join directory filename) = true ->
  (exists n,
      1 <= n
      /\ conflict_loop (length (entries fs) + 4) directory fs
                       (join directory filename) (join directory filename) 1
         = Some (join directory (numbered filename n))
      /\ os_path_exists directory fs (join directory (numbered filename n))
         = false
      /\ (forall m, 1 <= m < n ->
            os_path_exists directory fs (join directory (numbered filename m))
            = true))
  /\ (forall net url response message body verdict,
        filename = lit "image.jpg" ->
        os_path_exists directory fs (join directory (lit "image_1.jpg")) = false ->
        on_write fs = NoWriteFault ->
        probe_headers net url = Ok tt ->
        requests_get net url = Ok response ->
        raise_for_status response = Ok tt ->
        is_safe_to_download url response = Ok (true, message) ->
        content response = Ok body ->
        is_duplicate_image body directory fs = Ok (false, verdict) ->
        get_filename_from_url guess_extension url response = Ok filename ->
        download_single_image guess_extension net url directory fs
        = Some (true, with_new_file fs (lit "image_1.jpg") body)).
Proof.
  intros Hsafe Hocc. split; [apply conflict_loop_numbered; assumption|].
  intros net url response message body verdict -> Hfree Hw Hprobe Hget
         Hstatus Hok Hbody Hdup Hname.
  unfold download_single_image, download_single_image_fuel.
  rewrite (download_body_fetched guess_extension _ net url directory fs
             response message body Hprobe Hget Hstatus Hok Hbody).
  unfold bindM at 1, reading at 1. rewrite Hdup.
  unfold bindM at 1, reading. unfold resolve_filepath. rewrite Hname.
  cbn [bind].
  replace (length (entries fs) + 4) with (S (length (entries fs) + 3)) by lia.
  rewrite conflict_loop_step, Hocc.
  rewrite (candidate_join directory (lit "image.jpg") 1 eq_refl).
  change (numbered (lit "image.jpg") 1) with (lit "image_1.jpg").
  rewrite (conflict_loop_free _ directory fs _ _ _ Hfree).
  unfold bindM.
  rewrite (write_file_fresh directory fs (lit "image_1.jpg") body Hw eq_refl Hfree).
  reflexivity.
Qed.


End Resolution.

(** ** The safety check *)

Lemma is_safe_not_image url response :
  startswith (lit "image/") (content_type_of response) = false ->
  is_safe_to_download url response
  = Ok (false, not_an_image (content_type_of response)).
Proof.
  intros H. unfold is_safe_to_download. fold (content_type_of response).
  rewrite H. reflexivity.
Qed.

Lemma is_safe_oversize url response :
  startswith (lit "image/") (content_type_of response) = true ->
  declares_oversize response ->
  is_safe_to_download url response = Ok (false, too_large).
Proof.
  intros H [v [n [Hv [Hint Hbig]]]].
  unfold is_safe_to_download.
  fold (content_type_of response). fold (content_length_of response).
  rewrite H, Hv. cbn [negb].
  destruct v as [|c v]; [discriminate|].
  unfold int. rewrite Hint. cbn [bind].
  replace (size_limit <? n)%Z with true by (symmetry; apply Z.ltb_lt; exact Hbig).
  reflexivity.
Qed.

Lemma is_safe_accepts url response path :
  startswith (lit "image/") (content_type_of response) = true ->
  declares_within_limit response ->
  urlparse_path url = Ok path ->
  is_safe_to_download url response = Ok (true, lit "Safe to download").
Proof.
  intros H Hlen Hurl.
  unfold is_safe_to_download.
  fold (content_type_of response). fold (content_length_of response).
  rewrite H. cbn [negb]. unfold extension_warning. rewrite Hurl.
  destruct Hlen as [Hv|[Hv|[v [n [Hv [Hint Hsmall]]]]]]; rewrite Hv.
  - reflexivity.
  - reflexivity.
  - destruct v as [|c v]; [reflexivity|].
    unfold int. rewrite Hint. cbn [bind].
    replace (size_limit <? n)%Z with false
      by (symmetry; apply Z.ltb_ge; exact Hsmall).
    reflexivity.
Qed.

(** C3, amended: a content type that does not begin with [image/] is
    rejected as not an image; a content-length that [int] reads as an
    integer above 10 * 1024 * 1024 is rejected as too large; a response
    whose content-length is absent, empty or read by [int] as an integer
    within the limit is accepted when [urlparse] accepts the URL.  [int]
    reads decimal literals of at most 4300 digits.  So [text/html] is
    rejected whatever the size, [image/png] with length 1024 is accepted,
    and [image/png] with length 20971520 is rejected. *)
Theorem is_safe_to_download_verdicts url response :
  (startswith (lit "image/") (content_type_of response) = false ->
   is_safe_to_download url response
   = Ok (false, not_an_image (content_type_of response)))
  /\ (startswith (lit "image/") (content_type_of response) = true ->
      declares_oversize response ->
      is_safe_to_download url response = Ok (false, too_large))
  /\ (startswith (lit "image/") (content_type_of response) = true ->
      declares_within_limit response ->
      (exists path, urlparse_path url = Ok path) ->
      is_safe_to_download url response = Ok (true, lit "Safe to download"))
  /\ (content_type_of response = lit "text/html" ->
      is_safe_to_download url response
      = Ok (false, not_an_image (lit "text/html")))
  /\ (content_type_of response = lit "image/png" ->
      content_length_of response = Some (lit "1024") ->
      (exists path, urlparse_path url = Ok path) ->
      is_safe_to_download url response = Ok (true, lit "Safe to download"))
  /\ (content_type_of response = lit "image/png" ->
      content_length_of response = Some (lit "20971520") ->
      is_safe_to_download url response = Ok (false, too_large)).
Proof.
  split; [apply is_safe_not_image|].
  split; [apply is_safe_oversize|].
  split; [intros H Hlen [path Hurl]; exact (is_safe_accepts url response path H Hlen Hurl)|].
  split; [|split].
  - intros Hct. rewrite <- Hct. apply is_safe_not_image. rewrite Hct. reflexivity.
  - intros Hct Hcl [path Hurl].
    apply (is_safe_accepts url response path); [rewrite Hct; reflexivity| |exact Hurl].
    right. right. exists (lit "1024"), 1024%Z.
    split; [exact Hcl|]. split; [reflexivity|]. vm_compute. discriminate.
  - intros Hct Hcl. apply is_safe_oversize; [rewrite Hct; reflexivity|].
    exists (lit "20971520"), 20971520%Z.
    split; [exact Hcl|]. split; reflexivity.
Qed.

(** C10: with an image content type and a content-length that is present,
    non-empty and not an integer literal, [is_safe_to_download] returns no
    verdict: [int] raises [ValueError], which is no [RequestException],
    and the pipeline's general handler turns it into [False]. *)
Theorem non_numeric_length_raises url response v :
  startswith (lit "image/") (content_type_of response) = true ->
  content_length_of response = Some v ->
  v <> [] ->
  python_int v = None ->
  is_safe_to_download url response = Raise ValueError
  /\ is_RequestException ValueError = false
  /\ (forall guess_extension net directory fs,
        probe_headers net url = Ok tt ->
        requests_get net url = Ok response ->
        raise_for_status response = Ok tt ->
        download_single_image guess_extension net url directory fs
        = Some (false, fs)).
Proof.
  intros Hct Hcl Hne Hint.
  assert (is_safe_to_download url response = Raise ValueError) as Hraise.
  { unfold is_safe_to_download.
    fold (content_type_of response). fold (content_length_of response).
    rewrite Hct, Hcl. cbn [negb].
    destruct v as [|c v]; [congruence|].
    unfold int. rewrite Hint. reflexivity. }
  split; [exact Hraise|]. split; [reflexivity|].
  intros guess_extension net directory fs Hprobe Hget Hstatus.
  unfold download_single_image, download_single_image_fuel, download_body.
  unfold bindM, lift. rewrite Hprobe, Hget, Hstatus, Hraise. reflexivity.
Qed.

(** ** The resolved name *)

Lemma forallb_lstrip (P : ascii -> bool) cs s :
  forallb P s = true -> forallb P (lstrip cs s) = true.
Proof.
  induction s as [|c s IH]; [reflexivity|].
  intros H. cbn [lstrip]. destruct (in_chars c cs); [|exact H].
  cbn [forallb] in H. apply andb_true_iff in H. apply IH, H.
Qed.

Lemma forallb_rev_true (P : ascii -> bool) s :
  forallb P s = true -> forallb P (rev s) = true.
Proof.
  rewrite !forallb_forall. intros H x Hx. apply H, in_rev, Hx.
Qed.

Lemma sanitized_strip cs s : sanitized s = true -> sanitized (strip cs s) = true.
Proof.
  unfold sanitized, strip, rstrip. intros H.
  apply forallb_rev_true, forallb_lstrip, forallb_rev_true, forallb_lstrip, H.
Qed.

Lemma sanitized_filter s :
  sanitized (filter (fun c => in_chars c safe_chars) s) = true.
Proof.
  unfold sanitized. apply forallb_forall. intros x Hx.
  apply filter_In in Hx. apply Hx.
Qed.

Lemma sanitized_app a b :
  sanitized a = true -> sanitized b = true -> sanitized (a ++ b) = true.
Proof.
  unfold sanitized. intros Ha Hb. rewrite forallb_app, Ha, Hb. reflexivity.
Qed.

Lemma has_dot_app_r a b : has_dot b = true -> has_dot (a ++ b) = true.
Proof.
  unfold has_dot. intros H. rewrite in_chars_app, H. apply orb_true_r.
Qed.

Lemma extension_for_plain guess_extension response :
  plain_extensions guess_extension ->
  has_dot (extension_for guess_extension response) = true
  /\ sanitized (extension_for guess_extension response) = true.
Proof.
  intros Hplain. unfold extension_for.
  destruct (guess_extension _) as [[|c e]|] eqn:E; try (split; reflexivity).
  destruct (Hplain _ _ E) as [Hnil|[Hdot Hsafe]]; [discriminate|].
  split; [|exact Hsafe].
  cbn [startswith lit list_ascii_of_string] in Hdot.
  apply andb_true_iff in Hdot. destruct Hdot as [Hdot _].
  unfold has_dot, in_chars. cbn [existsb]. rewrite Hdot. reflexivity.
Qed.

(** What does hold of every returned name, over a MIME database with
    plain extensions: its characters are safe and it contains a dot. *)
Lemma get_filename_from_url_safe_with_dot guess_extension url response name :
  plain_extensions guess_extension ->
  get_filename_from_url guess_extension url response = Ok name ->
  sanitized name = true /\ has_dot name = true.
Proof.
  intros Hplain. unfold get_filename_from_url.
  destruct (urlparse_path url) as [path|]; cbn [bind]; [|discriminate].
  cbv zeta.
  match goal with
  | |- context [strip_ws (filter ?f ?x)] =>
      generalize x; intros raw
  end.
  pose proof (sanitized_strip whitespace _ (sanitized_filter raw)) as Hsafe.
  fold (strip_ws (filter (fun c => in_chars c safe_chars) raw)) in Hsafe.
  destruct (extension_for_plain guess_extension response Hplain) as [Hdot Hext].
  destruct (has_dot (strip_ws (filter (fun c => in_chars c safe_chars) raw)))
    eqn:E; cbn [negb]; intros [= <-].
  - split; assumption.
  - split; [apply sanitized_app; assumption|apply has_dot_app_r; exact Hdot].
Qed.

(** C5: for the URL [http://x/file.] the function returns [file.], a name
    whose only dot has nothing after it: [splitext] gives it the bare
    extension [.]. *)
Theorem trailing_dot_name_has_no_extension guess_extension response :
  get_filename_from_url guess_extension (lit "http://x/file.") response
  = Ok (lit "file.")
  /\ splitext (lit "file.") = (lit "file", lit ".")
  /\ ~ (exists stem ext, lit "file." = stem ++ lit "." ++ ext /\ ext <> []).
Proof.
  split; [vm_compute; reflexivity|].
  split; [vm_compute; reflexivity|].
  intros [stem [ext [H Hne]]].
  do 6 (destruct stem as [|? stem]; [cbn in H; congruence|]).
  cbn in H. discriminate.
Qed.

Lemma rejection_and_duplicate_write_nothing_witness :
  download_single_image sample_guess_extension
    (serve (respond "text/plain" "5" "hello"))
    (lit "https://x/notes.txt") sample_dir sample_fs
  = Some (false, sample_fs)
  /\ download_single_image sample_guess_extension
       (serve (respond "image/jpeg" "3" "abc"))
       (lit "https://x/cat.jpeg") sample_dir sample_fs
     = Some (true, sample_fs).
Proof.
  split.
  - apply (proj1 (rejection_and_duplicate_write_nothing
                    sample_guess_extension
                    (serve (respond "text/plain" "5" "hello"))
                    (lit "https://x/notes.txt") sample_dir sample_fs
                    (respond "text/plain" "5" "hello")
                    eq_refl eq_refl eq_refl)
                 (not_an_image (lit "text/plain"))).
    vm_compute. reflexivity.
  - apply (proj2 (rejection_and_duplicate_write_nothing
                    sample_guess_extension
                    (serve (respond "image/jpeg" "3" "abc"))
                    (lit "https://x/cat.jpeg") sample_dir sample_fs
                    (respond "image/jpeg" "3" "abc")
                    eq_refl eq_refl eq_refl)
                 (lit "Safe to download") (bytes_of "abc")
                 (Some (lit "cat.jpeg"))).
    + vm_compute. reflexivity.
    + reflexivity.
    + vm_compute. reflexivity.
Defined.

Lemma download_single_image_catches_everything_witness :
  download_single_image sample_guess_extension unreachable
    (lit "https://x/cat.jpeg") sample_dir sample_fs
  = Some (false, sample_fs)
  /\ download_single_image sample_guess_extension
       (serve (respond "image/png" "3" "abc"))
       (lit "https://x/cat.png") sample_dir full_disk_fs
     = Some (false, with_new_file full_disk_fs (lit "cat.png") (bytes_of "a")).
Proof.
  split.
  - apply (proj1 (proj2 (proj2 (download_single_image_catches_everything
                                  sample_guess_extension unreachable
                                  (lit "https://x/cat.jpeg")
                                  sample_dir sample_fs)))
                 RequestException).
    reflexivity.
  - apply (proj1 (proj2 (download_single_image_catches_everything
                           sample_guess_extension
                           (serve (respond "image/png" "3" "abc"))
                           (lit "https://x/cat.png")
                           sample_dir full_disk_fs))
                 IOError).
    vm_compute. reflexivity.
Defined.

Lemma conflict_loop_numbers_before_extension_witness :
  sanitized (lit "image.jpg") = true
  /\ os_path_exists sample_dir image_fs (join sample_dir (lit "image.jpg")) = true
  /\ download_single_image sample_guess_extension
       (serve (respond "image/jpeg" "3" "two"))
       (lit "https://b.example/photos/image.jpg") sample_dir image_fs
     = Some (true, with_new_file image_fs (lit "image_1.jpg") (bytes_of "two")).
Proof.
  split; [vm_compute; reflexivity|].
  split; [vm_compute; reflexivity|].
  apply (proj2 (conflict_loop_numbers_before_extension
                  sample_guess_extension sample_dir image_fs (lit "image.jpg")
                  eq_refl eq_refl)
               (serve (respond "image/jpeg" "3" "two"))
               (lit "https://b.example/photos/image.jpg")
               (respond "image/jpeg" "3" "two")
               (lit "Safe to download") (bytes_of "two") None).
  all: vm_compute; reflexivity.
Defined.



Lemma long_length_header :
  content_length_of long_length_response = Some (repeat "9"%char 4301).
Proof. reflexivity. Qed.

Lemma long_length_is_refused : python_int (repeat "9"%char 4301) = None.
Proof. vm_compute. reflexivity. Qed.

Lemma long_length_raises :
  is_safe_to_download (lit "https://x/cat.png") long_length_response
  = Raise ValueError.
Proof. vm_compute. reflexivity. Qed.

(** C3 as worded fails: with an image content type, the check raises
    [ValueError] where the claim has it accept or reject: on a
    content-length of [abc], on a URL whose host has an unbalanced
    bracket or is no address between its brackets, and on a
    content-length of 4301 digits. *)
Lemma validate_as_specified_fails :
  ~ validate_as_specified (lit "https://x/cat.png")
      (respond "image/png" "abc" "")
  /\ ~ validate_as_specified (lit "http://[x/cat.png")
         (respond "image/png" "1024" "")
  /\ ~ validate_as_specified (lit "http://[x]/cat.png")
         (respond "image/png" "1024" "")
  /\ ~ validate_as_specified (lit "https://x/cat.png") long_length_response.
Proof.
  split; [|split; [|split]].
  - intros [_ [_ H]].
    assert (is_safe_to_download (lit "https://x/cat.png")
              (respond "image/png" "abc" "")
            = Ok (true, lit "Safe to download")) as Habs.
    { apply H; [reflexivity|].
      intros [v [n [Hv [Hint _]]]].
      vm_compute in Hv. injection Hv as <-. vm_compute in Hint. discriminate. }
    vm_compute in Habs. discriminate.
  - intros [_ [_ H]].
    assert (is_safe_to_download (lit "http://[x/cat.png")
              (respond "image/png" "1024" "")
            = Ok (true, lit "Safe to download")) as Habs.
    { apply H; [reflexivity|].
      intros [v [n [Hv [Hint Hbig]]]].
      vm_compute in Hv. injection Hv as <-. vm_compute in Hint.
      injection Hint as <-. vm_compute in Hbig. discriminate. }
    vm_compute in Habs. discriminate.
  - intros [_ [_ H]].
    assert (is_safe_to_download (lit "http://[x]/cat.png")
              (respond "image/png" "1024" "")
            = Ok (true, lit "Safe to download")) as Habs.
    { apply H; [reflexivity|].
      intros [v [n [Hv [Hint Hbig]]]].
      vm_compute in Hv. injection Hv as <-. vm_compute in Hint.
      injection Hint as <-. vm_compute in Hbig. discriminate. }
    vm_compute in Habs. discriminate.
  - intros [_ [_ H]].
    assert (is_safe_to_download (lit "https://x/cat.png") long_length_response
            = Ok (true, lit "Safe to download")) as Habs.
    { apply H; [reflexivity|].
      intros [v [n [Hv [Hint _]]]].
      rewrite long_length_header in Hv.
      assert (v = repeat "9"%char 4301) as -> by congruence.
      rewrite long_length_is_refused in Hint. discriminate. }
    rewrite long_length_raises in Habs. discriminate.
Qed.

Lemma is_safe_to_download_verdicts_witness :
  is_safe_to_download (lit "https://x/page") (respond "text/html" "12" "")
  = Ok (false, not_an_image (lit "text/html"))
  /\ is_safe_to_download (lit "https://x/cat.png") (respond "image/png" "1024" "")
     = Ok (true, lit "Safe to download")
  /\ is_safe_to_download (lit "https://x/cat.png")
       (respond "image/png" "20971520" "")
     = Ok (false, too_large).
Proof.
  split; [|split].
  - apply (proj1 (proj2 (proj2 (proj2
             (is_safe_to_download_verdicts (lit "https://x/page")
                (respond "text/html" "12" "")))))).
    vm_compute. reflexivity.
  - apply (proj1 (proj2 (proj2 (proj2 (proj2
             (is_safe_to_download_verdicts (lit "https://x/cat.png")
                (respond "image/png" "1024" ""))))))).
    + vm_compute. reflexivity.
    + vm_compute. reflexivity.
    + exists (lit "/cat.png"). vm_compute. reflexivity.
  - apply (proj2 (proj2 (proj2 (proj2 (proj2
             (is_safe_to_download_verdicts (lit "https://x/cat.png")
                (respond "image/png" "20971520" ""))))))).
    + vm_compute. reflexivity.
    + vm_compute. reflexivity.
Defined.

Lemma non_numeric_length_raises_witness :
  is_safe_to_download (lit "https://x/cat.png") (respond "image/png" "abc" "")
  = Raise ValueError
  /\ download_single_image sample_guess_extension
       (serve (respond "image/png" "abc" "")) (lit "https://x/cat.png")
       sample_dir sample_fs
     = Some (false, sample_fs).
Proof.
  pose proof (non_numeric_length_raises (lit "https://x/cat.png")
                (respond "image/png" "abc" "") (lit "abc")
                eq_refl eq_refl ltac:(discriminate) eq_refl)
    as [Hraise [_ Hfalse]].
  split; [exact Hraise|].
  apply (Hfalse sample_guess_extension (serve (respond "image/png" "abc" ""))
                sample_dir sample_fs); reflexivity.
Defined.

(** ** Scenarios *)

(** A first download into an empty directory is written under the name
    the URL ends in. *)
Example first_download_is_written :
  download_single_image sample_guess_extension
    (serve (respond "image/png" "3" "abc")) (lit "https://x/test.png")
    sample_dir empty_fs
  = Some (true, with_new_file empty_fs (lit "test.png") (bytes_of "abc")).
Proof. vm_compute. reflexivity. Qed.

(** Fetching the same URL twice writes one file: the second call finds
    the duplicate and returns [True]. *)
Example same_url_twice_writes_once :
  process_urls sample_guess_extension
    (serve (respond "image/png" "3" "abc"))
    [lit "https://x/test.png"; lit "https://x/test.png"] sample_dir empty_fs
  = Some ([true; true],
          with_new_file empty_fs (lit "test.png") (bytes_of "abc")).
Proof. vm_compute. reflexivity. Qed.

(** Two different pictures that both resolve to [image.jpg] end up as
    [image.jpg] and [image_1.jpg]. *)
Example same_name_different_content :
  process_urls sample_guess_extension two_hosts
    [lit "https://a.example/image.jpg"; lit "https://b.example/image.jpg"]
    sample_dir empty_fs
  = Some ([true; true],
          with_new_file
            (with_new_file empty_fs (lit "image.jpg") (bytes_of "one"))
            (lit "image_1.jpg") (bytes_of "two")).
Proof. vm_compute. reflexivity. Qed.

(** A [text/plain] response is turned down and nothing is written. *)
Example text_is_turned_down :
  download_single_image sample_guess_extension
    (serve (respond "text/plain" "5" "hello")) (lit "https://x/notes.txt")
    sample_dir empty_fs
  = Some (false, empty_fs).
Proof. vm_compute. reflexivity. Qed.

(** * Further properties of the code *)

(** ** Characters of slices and pieces *)

Lemma in_chars_firstn c n s :
  in_chars c s = false -> in_chars c (firstn n s) = false.
Proof.
  intros H. rewrite <- (firstn_skipn n s), in_chars_app in H.
  apply orb_false_iff in H. apply H.
Qed.

Lemma in_chars_skipn c n s :
  in_chars c s = false -> in_chars c (skipn n s) = false.
Proof.
  intros H. rewrite <- (firstn_skipn n s), in_chars_app in H.
  apply orb_false_iff in H. apply H.
Qed.

Lemma in_chars_before c d s :
  in_chars c s = false -> in_chars c (before d s) = false.
Proof.
  induction s as [|x s IH]; [reflexivity|].
  unfold in_chars. cbn [existsb before]. intros H.
  apply orb_false_iff in H. destruct H as [Hx Hs].
  destruct (Ascii.eqb x d); [reflexivity|].
  cbn [existsb]. rewrite Hx. exact (IH Hs).
Qed.

Lemma in_chars_before_self c s : in_chars c (before c s) = false.
Proof.
  induction s as [|x s IH]; [reflexivity|].
  cbn [before]. destruct (Ascii.eqb_spec x c) as [->|Hne]; [reflexivity|].
  unfold in_chars. cbn [existsb]. fold (in_chars c (before c s)).
  rewrite IH. destruct (Ascii.eqb_spec c x); [congruence|reflexivity].
Qed.

Lemma before_absent c s : in_chars c s = false -> before c s = s.
Proof.
  induction s as [|x s IH]; [reflexivity|].
  unfold in_chars. cbn [existsb before]. intros H.
  apply orb_false_iff in H. destruct H as [Hx Hs].
  destruct (Ascii.eqb_spec x c) as [->|_].
  - rewrite Ascii.eqb_refl in Hx. discriminate.
  - f_equal. exact (IH Hs).
Qed.

(** The first piece of a split on one character is the text before
    that character. *)
Lemma split_go_first c s : forall cur,
  item 0 (split_go [c] s cur 0) = rev cur ++ before c s.
Proof.
  induction s as [|x s IH]; intros cur.
  - cbn. rewrite app_nil_r. reflexivity.
  - cbn [split_go startswith before].
    destruct (Ascii.eqb_spec c x) as [->|Hne].
    + rewrite Ascii.eqb_refl. cbn. rewrite app_nil_r. reflexivity.
    + destruct (Ascii.eqb_spec x c) as [->|_]; [congruence|].
      cbn [andb]. rewrite IH. cbn [rev]. rewrite <- app_assoc. reflexivity.
Qed.

Lemma split_first c s : item 0 (split [c] s) = before c s.
Proof. unfold split. apply (split_go_first c s []). Qed.

Lemma in_chars_rev c s : in_chars c (rev s) = in_chars c s.
Proof.
  destruct (in_chars c s) eqn:E.
  - apply in_chars_In. apply in_chars_In in E. apply in_rev in E. exact E.
  - destruct (in_chars c (rev s)) eqn:E'; [|reflexivity].
    apply in_chars_In in E'. apply in_rev in E'. apply in_chars_In in E'.
    congruence.
Qed.

Lemma in_chars_lstrip c cs s :
  in_chars c cs = false -> in_chars c (lstrip cs s) = in_chars c s.
Proof.
  intros Hc. induction s as [|x s IH]; [reflexivity|].
  cbn [lstrip]. destruct (in_chars x cs) eqn:Hx; [|reflexivity].
  rewrite IH. unfold in_chars at 2. cbn [existsb]. fold (in_chars c s).
  destruct (Ascii.eqb_spec c x) as [->|_]; [congruence|reflexivity].
Qed.

Lemma in_chars_strip c cs s :
  in_chars c cs = false -> in_chars c (strip cs s) = in_chars c s.
Proof.
  intros Hc. unfold strip, rstrip.
  rewrite in_chars_rev, (in_chars_lstrip c cs _ Hc), in_chars_rev.
  apply in_chars_lstrip. exact Hc.
Qed.

Lemma in_chars_filter c (keep : ascii -> bool) s :
  keep c = true -> in_chars c (filter keep s) = in_chars c s.
Proof.
  intros Hc. induction s as [|x s IH]; [reflexivity|].
  cbn [filter]. unfold in_chars at 2. cbn [existsb]. fold (in_chars c s).
  destruct (keep x) eqn:Hx.
  - unfold in_chars at 1. cbn [existsb]. fold (in_chars c (filter keep s)).
    rewrite IH. reflexivity.
  - rewrite IH. destruct (Ascii.eqb_spec c x) as [->|_]; [congruence|reflexivity].
Qed.

(** ** What [urlparse] leaves in the path *)

Lemma check_bracketed_host_raises hostname e :
  check_bracketed_host hostname = Raise e -> e = ValueError.
Proof.
  unfold check_bracketed_host.
  destruct (startswith _ _); [destruct (ipvfuture _)|];
    [discriminate|congruence|].
  destruct (ip_address hostname) as [[n|n]|]; congruence.
Qed.

Lemma check_bracketed_netloc_raises netloc e :
  check_bracketed_netloc netloc = Raise e -> e = ValueError.
Proof.
  unfold check_bracketed_netloc.
  repeat match goal with
         | |- context [let '(_, _) := ?p in _] => destruct p
         | |- context [if ?b then _ else _] => destruct b
         end;
  solve [congruence | apply check_bracketed_host_raises].
Qed.

Lemma urlsplit_path_chars url scheme path :
  urlsplit url = Ok (scheme, path) ->
  in_chars "?"%char path = false /\ in_chars "#"%char path = false.
Proof.
  unfold urlsplit.
  match goal with
  | |- context [match ?m with None => _ | Some i => _ end] =>
      destruct m as [i|]
  end;
  repeat match goal with
         | |- context [if ?b then _ else _] => destruct b
         | |- context [let '(_, _) := ?p in _] => destruct p
         | |- context [check_bracketed_netloc ?n] =>
             destruct (check_bracketed_netloc n) as [[]|]
         end;
  cbn [bind]; try discriminate;
  intros [= _ <-];
  (split; [apply in_chars_before_self
          |apply in_chars_before, in_chars_before_self]).
Qed.

Lemma urlsplit_raises url e : urlsplit url = Raise e -> e = ValueError.
Proof.
  unfold urlsplit.
  match goal with
  | |- context [match ?m with None => _ | Some i => _ end] =>
      destruct m as [i|]
  end;
  repeat match goal with
         | |- context [if ?b then _ else _] => destruct b
         | |- context [let '(_, _) := ?p in _] => destruct p
         | |- context [check_bracketed_netloc ?n] =>
             let E := fresh "E" in
             destruct (check_bracketed_netloc n) as [[]|e'] eqn:E;
             [|apply check_bracketed_netloc_raises in E; subst e']
         end;
  cbn [bind]; congruence.
Qed.

Lemma urlparse_path_raises url e : urlparse_path url = Raise e -> e = ValueError.
Proof.
  unfold urlparse_path.
  destruct (urlsplit url) as [[scheme path]|e'] eqn:E; cbn [bind].
  - destruct (_ && _); discriminate.
  - intros [= <-]. exact (urlsplit_raises url e' E).
Qed.

Lemma urlparse_path_chars url path :
  urlparse_path url = Ok path ->
  in_chars "?"%char path = false /\ in_chars "#"%char path = false.
Proof.
  unfold urlparse_path.
  destruct (urlsplit url) as [[scheme p]|e'] eqn:E; cbn [bind]; [|discriminate].
  destruct (urlsplit_path_chars url scheme p E) as [Hq Hh].
  destruct (_ && _); intros [= <-]; [|split; assumption].
  unfold splitparams, slice_to, slice_from.
  destruct (0 <=? rfind "/"%char p)%Z.
  - rewrite !in_chars_app.
    rewrite (in_chars_firstn _ _ _ Hq), (in_chars_firstn _ _ _ Hh).
    rewrite (in_chars_before _ _ _ (in_chars_skipn _ _ _ Hq)).
    rewrite (in_chars_before _ _ _ (in_chars_skipn _ _ _ Hh)).
    split; reflexivity.
  - split; apply in_chars_before; assumption.
Qed.

(** ** How the name is derived *)

Lemma has_dot_nonempty s :
  has_dot s = true ->
  (match s with [] => true | _ => false end) || negb (has_dot s) = false.
Proof. intros H. rewrite H. destruct s; [discriminate|reflexivity]. Qed.

Lemma has_dot_sanitize s :
  has_dot (strip_ws (filter (fun c => in_chars c safe_chars) s)) = has_dot s.
Proof.
  unfold has_dot, strip_ws.
  rewrite (in_chars_strip "."%char whitespace _ eq_refl).
  apply (in_chars_filter "."%char (fun c => in_chars c safe_chars) s eq_refl).
Qed.

(** X1: when the last segment of the URL's path contains a dot, the
    name is that segment with the unsafe characters and the surrounding
    blanks removed; the response headers play no part. *)
Theorem url_name_overrides_headers guess_extension url path response :
  urlparse_path url = Ok path ->
  has_dot (basename path) = true ->
  get_filename_from_url guess_extension url response
  = Ok (strip_ws (filter (fun c => in_chars c safe_chars) (basename path))).
Proof.
  intros Hpath Hdot. unfold get_filename_from_url. rewrite Hpath.
  cbn [bind]. cbv zeta.
  repeat (rewrite (has_dot_nonempty _ Hdot); cbv iota).
  destruct (urlparse_path_chars url path Hpath) as [Hq Hh].
  change (lit "?") with ["?"%char]. change (lit "#") with ["#"%char].
  rewrite !split_first.
  unfold basename, slice_from in *.
  rewrite (before_absent "?"%char _ (in_chars_skipn _ _ _ Hq)).
  rewrite (before_absent "#"%char _ (in_chars_skipn _ _ _ Hh)).
  rewrite has_dot_sanitize, Hdot. reflexivity.
Qed.

Lemma url_name_overrides_headers_witness :
  get_filename_from_url sample_guess_extension
    (lit "https://x.org/a/my photo~1.png?size=2") renaming_response
  = Ok (lit "my photo1.png").
Proof.
  apply (url_name_overrides_headers sample_guess_extension
           (lit "https://x.org/a/my photo~1.png?size=2")
           (lit "/a/my photo~1.png") renaming_response).
  - vm_compute. reflexivity.
  - vm_compute. reflexivity.
Defined.

(** X2: when the URL's last segment has no dot, the response carries no
    [filename=] in a content-disposition header, and the MIME database
    has no extension for the declared type, the name is
    [downloaded_image.jpg]. *)
Theorem fallback_name_is_downloaded_image guess_extension url path response :
  urlparse_path url = Ok path ->
  has_dot (basename path) = false ->
  contains (lit "filename=")
           (headers_get_default (lit "content-disposition") []
                                (response_headers response)) = false ->
  guess_extension
    (item 0 (split (lit ";")
                   (headers_get_default (lit "content-type") (lit "image/jpeg")
                                        (response_headers response)))) = None ->
  get_filename_from_url guess_extension url response
  = Ok (lit "downloaded_image.jpg").
Proof.
  intros Hpath Hdot Hdisp Hguess.
  unfold get_filename_from_url. rewrite Hpath. cbn [bind]. cbv zeta.
  repeat (first [rewrite Hdot | rewrite Hdisp | rewrite orb_true_r];
          cbn [negb]; cbv iota).
  unfold extension_for. rewrite Hguess. vm_compute. reflexivity.
Qed.

Lemma fallback_name_is_downloaded_image_witness :
  get_filename_from_url sample_guess_extension (lit "https://x.org/gallery/")
    (respond "image/webp" "3" "abc")
  = Ok (lit "downloaded_image.jpg").
Proof.
  apply (fallback_name_is_downloaded_image sample_guess_extension
           (lit "https://x.org/gallery/") (lit "/gallery/")
           (respond "image/webp" "3" "abc")).
  all: vm_compute; reflexivity.
Defined.

(** ** More on the safety check *)

(** X3: an accepted response has a content type that begins with
    [image/] and no integer content-length above the limit, the URL
    parses, and the message is the fixed one. *)
Theorem accepted_means_image_within_limit url response message :
  is_safe_to_download url response = Ok (true, message) ->
  startswith (lit "image/") (content_type_of response) = true
  /\ ~ declares_oversize response
  /\ (exists path, urlparse_path url = Ok path)
  /\ message = lit "Safe to download".
Proof.
  unfold is_safe_to_download.
  fold (content_type_of response). fold (content_length_of response).
  destruct (startswith (lit "image/") (content_type_of response));
    cbn [negb]; [|discriminate].
  intros H. split; [reflexivity|].
  assert (forall over : bool,
             (if over then Ok (false, too_large)
              else _ <- extension_warning url ;; Ok (true, lit "Safe to download"))
             = Ok (true, message) ->
             over = false /\ (exists path, urlparse_path url = Ok path)
             /\ message = lit "Safe to download") as Hover.
  { intros [|]; [discriminate|]. unfold extension_warning.
    destruct (urlparse_path url) as [path|]; cbn [bind]; [|discriminate].
    intros [= <-]. split; [reflexivity|]. split; [exists path|]; reflexivity. }
  destruct (content_length_of response) as [[|c v]|] eqn:Hcl; cbn [bind] in H.
  - destruct (Hover false H) as [_ [Hp Hm]].
    split; [|split; assumption].
    intros [v [n [Hv [Hint _]]]]. rewrite Hcl in Hv. injection Hv as <-.
    vm_compute in Hint. discriminate.
  - unfold int in H.
    destruct (python_int (c :: v)) as [n|] eqn:Hint; cbn [bind] in H;
      [|discriminate].
    destruct (Hover _ H) as [Hlt [Hp Hm]].
    split; [|split; assumption].
    intros [v' [n' [Hv [Hint' Hbig]]]]. rewrite Hcl in Hv.
    injection Hv as <-. rewrite Hint in Hint'. injection Hint' as <-.
    apply Z.ltb_ge in Hlt. lia.
  - destruct (Hover false H) as [_ [Hp Hm]].
    split; [|split; assumption].
    intros [v [n [Hv _]]]. rewrite Hcl in Hv. discriminate.
Qed.

Lemma accepted_means_image_within_limit_witness :
  startswith (lit "image/") (content_type_of (respond "image/png" "1024" "")) = true
  /\ ~ declares_oversize (respond "image/png" "1024" "")
  /\ (exists path, urlparse_path (lit "https://x/cat.png") = Ok path)
  /\ lit "Safe to download" = lit "Safe to download".
Proof.
  apply (accepted_means_image_within_limit (lit "https://x/cat.png")
           (respond "image/png" "1024" "") (lit "Safe to download")).
  vm_compute. reflexivity.
Defined.

(** X4: the URL bears on the verdict only through whether it parses:
    the check of its extension prints a warning and changes nothing. *)
Theorem url_extension_never_changes_verdict url1 url2 path1 path2 response :
  urlparse_path url1 = Ok path1 ->
  urlparse_path url2 = Ok path2 ->
  is_safe_to_download url1 response = is_safe_to_download url2 response.
Proof.
  intros H1 H2. unfold is_safe_to_download, extension_warning.
  rewrite H1, H2. reflexivity.
Qed.

Lemma url_extension_never_changes_verdict_witness :
  extension_warning (lit "https://x/cat.png") = Ok false
  /\ extension_warning (lit "https://x/download?id=7") = Ok true
  /\ is_safe_to_download (lit "https://x/cat.png") (respond "image/png" "1024" "")
     = is_safe_to_download (lit "https://x/download?id=7")
                           (respond "image/png" "1024" "").
Proof.
  split; [vm_compute; reflexivity|]. split; [vm_compute; reflexivity|].
  apply (url_extension_never_changes_verdict
           (lit "https://x/cat.png") (lit "https://x/download?id=7")
           (lit "/cat.png") (lit "/download")
           (respond "image/png" "1024" "")).
  all: vm_compute; reflexivity.
Defined.

(** X5: the check raises only [ValueError], only for a content type that
    begins with [image/], and only because [int] refuses the
    content-length (it is no integer literal, or one of more than 4300
    digits) or the URL does not parse. *)
Theorem validator_raises_only_on_image_types url response e :
  is_safe_to_download url response = Raise e ->
  e = ValueError
  /\ startswith (lit "image/") (content_type_of response) = true
  /\ ((exists v, content_length_of response = Some v
                 /\ v <> [] /\ python_int v = None)
      \/ urlparse_path url = Raise ValueError).
Proof.
  unfold is_safe_to_download.
  fold (content_type_of response). fold (content_length_of response).
  destruct (startswith (lit "image/") (content_type_of response));
    cbn [negb]; [|discriminate].
  assert (forall over : bool,
             (if over then Ok (false, too_large)
              else _ <- extension_warning url ;; Ok (true, lit "Safe to download"))
             = Raise e ->
             e = ValueError /\ urlparse_path url = Raise ValueError) as Hover.
  { intros [|]; [discriminate|]. unfold extension_warning.
    destruct (urlparse_path url) as [path|e'] eqn:E; cbn [bind]; [discriminate|].
    intros [= <-]. rewrite (urlparse_path_raises url e' E). split; reflexivity. }
  destruct (content_length_of response) as [[|c v]|] eqn:Hcl; cbn [bind]; intros H.
  - destruct (Hover false H) as [-> Hu]. repeat split. right. exact Hu.
  - unfold int in H.
    destruct (python_int (c :: v)) as [n|] eqn:Hint; cbn [bind] in H.
    + destruct (Hover _ H) as [-> Hu]. repeat split. right. exact Hu.
    + injection H as <-. repeat split. left. exists (c :: v).
      repeat split; [discriminate|exact Hint].
  - destruct (Hover false H) as [-> Hu]. repeat split. right. exact Hu.
Qed.

Lemma validator_raises_only_on_image_types_witness :
  ValueError = ValueError
  /\ startswith (lit "image/") (content_type_of (respond "image/png" "1e6" "")) = true
  /\ ((exists v, content_length_of (respond "image/png" "1e6" "") = Some v
                 /\ v <> [] /\ python_int v = None)
      \/ urlparse_path (lit "https://x/cat.png") = Raise ValueError).
Proof.
  apply (validator_raises_only_on_image_types (lit "https://x/cat.png")
           (respond "image/png" "1e6" "") ValueError).
  vm_compute. reflexivity.
Defined.

(** ** What one call does to the directory *)

Lemma write_file_after_loop directory fs q body fs' r :
  os_path_exists directory fs q = false ->
  write_file directory q body fs = (fs', r) ->
  (fs' = fs /\ r = Raise IOError)
  \/ (exists n data,
        adds_file fs fs' n data
        /\ ((on_write fs = NoWriteFault /\ data = body /\ r = Ok tt)
            \/ (exists k, on_write fs = WriteFails k
                          /\ data = firstn k body /\ r = Raise IOError))).
Proof.
  unfold os_path_exists, stat, write_file. intros Hfree.
  destruct (entry_name directory q) as [n|];
    [|intros [= <- <-]; left; split; reflexivity].
  destruct (existsb (str_eqb n) dot_names) eqn:Hdot; [discriminate|].
  destruct (lookup n (entries fs)) eqn:Hlook; [discriminate|].
  cbn [orb].
  destruct (in_chars "/"%char n) eqn:Hslash;
    [intros [= <- <-]; left; split; reflexivity|].
  assert (valid_name n = true) as Hvalid
      by (unfold valid_name; rewrite Hslash, Hdot; reflexivity).
  unfold store. rewrite Hlook.
  destruct (on_write fs) as [| |k] eqn:Hw; intros [= <- <-].
  - right. exists n, body. split.
    + unfold adds_file, with_new_file. rewrite Hw.
      repeat split; assumption.
    + left. repeat split.
  - left. split; reflexivity.
  - right. exists n, (firstn k body). split.
    + unfold adds_file, with_new_file. rewrite Hw.
      repeat split; assumption.
    + right. exists k. repeat split.
Qed.

Section Effects.

Variable guess_extension : str -> option str.

Lemma download_has_effect net url directory fs ok fs' :
  download_single_image guess_extension net url directory fs = Some (ok, fs') ->
  download_effect net url directory fs ok fs'.
Proof.
  unfold download_single_image, download_single_image_fuel, download_body.
  unfold bindM, lift, reading, ret, download_effect.
  destruct (probe_headers net url) as [[]|e0] eqn:Hprobe;
    [|destruct (is_RequestException e0); intros [= <- <-]; left; split; reflexivity].
  destruct (requests_get net url) as [response|e1] eqn:Hget;
    [|destruct (is_RequestException e1); intros [= <- <-]; left; split; reflexivity].
  destruct (raise_for_status response) as [[]|e2] eqn:Hstatus;
    [|destruct (is_RequestException e2); intros [= <- <-]; left; split; reflexivity].
  destruct (is_safe_to_download url response) as [[[|] message]|e3] eqn:Hsafe;
    cbn [negb];
    [|intros [= <- <-]; left; split; reflexivity
     |destruct (is_RequestException e3); intros [= <- <-]; left; split; reflexivity].
  destruct (content response) as [body|e4] eqn:Hbody;
    [|destruct (is_RequestException e4); intros [= <- <-]; left; split; reflexivity].
  assert (fetched net url response body) as Hfetched.
  { unfold fetched. repeat split; try assumption. exists message. exact Hsafe. }
  destruct (is_duplicate_image body directory fs) as [[[|] verdict]|e5] eqn:Hdup;
    [intros [= <- <-]; right; left; repeat split;
       exists response, body, verdict; split; assumption
    |
    |destruct (is_RequestException e5); intros [= <- <-]; left; split; reflexivity].
  unfold resolve_filepath.
  destruct (get_filename_from_url guess_extension url response)
    as [filename|e6]; cbn [bind];
    [|destruct (is_RequestException e6); intros [= <- <-]; left; split; reflexivity].
  destruct (conflict_loop_terminates directory fs (join directory filename))
    as [q [Hq Hfree]].
  rewrite Hq.
  destruct (write_file directory q body fs) as [fs1 r] eqn:Hwrite.
  destruct (write_file_after_loop directory fs q body fs1 r Hfree Hwrite)
    as [[-> ->]|[n [data [Hadds [[Hw [-> ->]]|[k [Hw [-> ->]]]]]]]].
  - intros [= <- <-]. left. split; reflexivity.
  - intros [= <- <-]. right. right.
    exists response, body, verdict, n, body.
    split; [exact Hfetched|]. split; [exact Hdup|]. split; [exact Hadds|].
    left. repeat split. exact Hw.
  - intros [= <- <-]. right. right.
    exists response, body, verdict, n, (firstn k body).
    split; [exact Hfetched|]. split; [exact Hdup|]. split; [exact Hadds|].
    right. split; [reflexivity|]. exists k. split; [exact Hw|reflexivity].
Qed.

End Effects.

(** ** Directory invariants *)

Lemma str_eqb_neq_sym a b : str_eqb a b = false -> str_eqb b a = false.
Proof.
  unfold str_eqb.
  destruct (list_eq_dec ascii_dec a b), (list_eq_dec ascii_dec b a);
    congruence.
Qed.

Lemma lookup_app_l n l l' x :
  lookup n l = Some x -> lookup n (l ++ l') = Some x.
Proof.
  induction l as [|[m y] l IH]; [discriminate|].
  cbn [lookup app]. destruct (str_eqb m n); [trivial|exact IH].
Qed.

Lemma lookup_None n l :
  lookup n l = None -> existsb (str_eqb n) (map fst l) = false.
Proof.
  induction l as [|[m y] l IH]; [reflexivity|].
  cbn [lookup map fst existsb]. destruct (str_eqb m n) eqn:E; [discriminate|].
  intros H. rewrite (IH H), orb_false_r.
  apply str_eqb_neq_sym. exact E.
Qed.

Lemma distinct_snoc l n :
  distinct l = true -> existsb (str_eqb n) l = false ->
  distinct (l ++ [n]) = true.
Proof.
  induction l as [|x l IH]; [reflexivity|].
  cbn [distinct existsb app]. intros Hd Hn.
  apply andb_true_iff in Hd. destruct Hd as [Hx Hd].
  apply orb_false_iff in Hn. destruct Hn as [Hnx Hn].
  rewrite existsb_app. cbn [existsb].
  apply negb_true_iff in Hx. rewrite Hx, (str_eqb_neq_sym _ _ Hnx).
  cbn. exact (IH Hd Hn).
Qed.

Lemma adds_file_wf fs fs' n data :
  wf_fs fs = true -> adds_file fs fs' n data -> wf_fs fs' = true.
Proof.
  unfold wf_fs, adds_file, os_listdir. intros Hwf [Hvalid [Hlook ->]].
  apply andb_true_iff in Hwf. destruct Hwf as [Hall Hdist].
  cbn [entries with_new_file]. rewrite map_app. cbn [map fst].
  rewrite forallb_app, Hall. cbn [forallb]. rewrite Hvalid. cbn [andb].
  apply distinct_snoc; [exact Hdist|apply lookup_None; exact Hlook].
Qed.

Lemma adds_file_digests fs fs' n data :
  adds_file fs fs' n data ->
  digests fs' = digests fs ++ [MD5.hexdigest (MD5.md5 data)].
Proof.
  intros [_ [_ ->]]. unfold digests. cbn [entries with_new_file].
  rewrite flat_map_app. reflexivity.
Qed.

Lemma digests_In d fs :
  In d (digests fs) ->
  exists e, In e (entries fs) /\ file_digest (snd e) = Some d.
Proof.
  unfold digests. intros H. apply in_flat_map in H.
  destruct H as [e [He Hd]]. exists e. split; [exact He|].
  destruct (file_digest (snd e)) as [d'|]; [|contradiction].
  destruct Hd as [->|[]]. reflexivity.
Qed.

Lemma not_duplicate_not_in_digests body directory fs verdict :
  wf_fs fs = true ->
  is_duplicate_image body directory fs = Ok (false, verdict) ->
  ~ In (MD5.hexdigest (MD5.md5 body)) (digests fs).
Proof.
  intros Hwf Hdup Hin.
  rewrite (is_duplicate_image_find body directory fs Hwf) in Hdup.
  destruct (find _ (entries fs)) as [e|] eqn:Hfind; [discriminate|].
  destruct (digests_In _ _ Hin) as [e [He Hd]].
  pose proof (find_none _ _ Hfind e He) as Hno.
  unfold digest_matches in Hno. apply hash_eqb_Some in Hd. congruence.
Qed.

Lemma duplicate_in_directory body directory fs name :
  wf_fs fs = true ->
  is_duplicate_image body directory fs = Ok (true, name) ->
  exists n x, In (n, x) (entries fs)
              /\ file_digest x = Some (MD5.hexdigest (MD5.md5 body)).
Proof.
  intros Hwf Hdup.
  rewrite (is_duplicate_image_find body directory fs Hwf) in Hdup.
  destruct (find _ (entries fs)) as [[n x]|] eqn:Hfind; [|discriminate].
  apply find_some in Hfind. destruct Hfind as [Hin Hm].
  unfold digest_matches in Hm. apply hash_eqb_Some in Hm.
  exists n, x. split; assumption.
Qed.

Lemma digest_present_is_duplicate body directory fs n x :
  wf_fs fs = true ->
  In (n, x) (entries fs) ->
  file_digest x = Some (MD5.hexdigest (MD5.md5 body)) ->
  exists name, is_duplicate_image body directory fs = Ok (true, Some name).
Proof.
  intros Hwf Hin Hd.
  rewrite (is_duplicate_image_find body directory fs Hwf).
  destruct (find _ (entries fs)) as [e|] eqn:Hfind.
  - exists (fst e). reflexivity.
  - pose proof (find_none _ _ Hfind (n, x) Hin) as Hno.
    unfold digest_matches in Hno. apply hash_eqb_Some in Hd.
    cbn [snd] in Hno. congruence.
Qed.

Section Invariants.

Variable guess_extension : str -> option str.

(** X6: a call never removes or changes what the directory holds: every
    entry is still there with the same content, the listing grows by at
    most one name, and the new name is one the directory did not have. *)
Theorem download_keeps_existing_files net url directory fs ok fs' :
  download_single_image guess_extension net url directory fs = Some (ok, fs') ->
  (exists added, entries fs' = entries fs ++ added /\ length added <= 1
                 /\ forall n x, In (n, x) added -> lookup n (entries fs) = None)
  /\ (forall n x, lookup n (entries fs) = Some x ->
                  lookup n (entries fs') = Some x)
  /\ on_write fs' = on_write fs.
Proof.
  intros H. apply download_has_effect in H.
  destruct H as [[_ ->]|[[_ [-> _]]|[response [body [verdict [n [data
                  [_ [_ [[_ [Hlook ->]] _]]]]]]]]]].
  - split; [|split; [trivial|reflexivity]].
    exists []. rewrite app_nil_r. repeat split; [cbn; lia|contradiction].
  - split; [|split; [trivial|reflexivity]].
    exists []. rewrite app_nil_r. repeat split; [cbn; lia|contradiction].
  - split; [|split; [|reflexivity]].
    + exists [(n, RegularFile data NoFault)].
      repeat split; [cbn; lia|].
      intros m x [[= <- <-]|[]]. exact Hlook.
    + intros m x Hm. cbn [entries with_new_file]. apply lookup_app_l, Hm.
Qed.

(** X7: when a call returns [True], the directory afterwards holds a
    readable regular file whose digest is that of the downloaded body. *)
Theorem success_means_content_is_stored net url directory fs fs' :
  wf_fs fs = true ->
  download_single_image guess_extension net url directory fs = Some (true, fs') ->
  exists response body n x,
    requests_get net url = Ok response
    /\ content response = Ok body
    /\ In (n, x) (entries fs')
    /\ file_digest x = Some (MD5.hexdigest (MD5.md5 body)).
Proof.
  intros Hwf H. apply download_has_effect in H.
  destruct H as [[Hok _]|[[_ [-> [response [body [name [Hf Hdup]]]]]]
                         |[response [body [verdict [n [data
                            [Hf [_ [[_ [_ ->]] [[_ [_ ->]]|[Hok _]]]]]]]]]]]];
    try discriminate.
  - destruct (duplicate_in_directory body directory fs name Hwf Hdup)
      as [n [x [Hin Hd]]].
    destruct Hf as [_ [Hget [_ [_ Hbody]]]].
    exists response, body, n, x. repeat split; assumption.
  - destruct Hf as [_ [Hget [_ [_ Hbody]]]].
    exists response, body, n, (RegularFile body NoFault).
    repeat split; try assumption.
    cbn [entries with_new_file]. apply in_or_app. right. left. reflexivity.
Qed.

(** X8: a call that returns [False] leaves the directory exactly as it
    was, unless a write was cut short: then a file holding the bytes
    written so far is left behind. *)
Theorem failure_leaves_directory_alone net url directory fs fs' :
  download_single_image guess_extension net url directory fs
  = Some (false, fs') ->
  fs' = fs
  \/ exists k response body n,
      on_write fs = WriteFails k
      /\ requests_get net url = Ok response
      /\ content response = Ok body
      /\ adds_file fs fs' n (firstn k body).
Proof.
  intros H. apply download_has_effect in H.
  destruct H as [[_ ->]|[[Hok _]|H]]; [left; reflexivity|discriminate|].
  destruct H as [response [body [verdict [n [data [Hf [_ [Hadds Hhow]]]]]]]].
  destruct Hhow as [[Hok _]|[_ [k [Hw ->]]]]; [discriminate|].
  right. destruct Hf as [_ [Hget [_ [_ Hbody]]]].
  exists k, response, body, n. repeat split; try assumption; apply Hadds.
Qed.

Lemma download_keeps_wf net url directory fs ok fs' :
  wf_fs fs = true ->
  download_single_image guess_extension net url directory fs = Some (ok, fs') ->
  wf_fs fs' = true.
Proof.
  intros Hwf H. apply download_has_effect in H.
  destruct H as [[_ ->]|[[_ [-> _]]|[response [body [verdict [n [data
                  [_ [_ [Hadds _]]]]]]]]]]; try exact Hwf.
  exact (adds_file_wf fs fs' n data Hwf Hadds).
Qed.

Lemma download_keeps_on_write net url directory fs ok fs' :
  download_single_image guess_extension net url directory fs = Some (ok, fs') ->
  on_write fs' = on_write fs.
Proof.
  intros H. apply download_has_effect in H.
  destruct H as [[_ ->]|[[_ [-> _]]|[response [body [verdict [n [data
                  [_ [_ [[_ [_ ->]] _]]]]]]]]]]; reflexivity.
Qed.

Lemma download_keeps_digests_apart net url directory fs ok fs' :
  wf_fs fs = true ->
  on_write fs = NoWriteFault ->
  NoDup (digests fs) ->
  download_single_image guess_extension net url directory fs = Some (ok, fs') ->
  NoDup (digests fs').
Proof.
  intros Hwf Hw Hnodup H. apply download_has_effect in H.
  destruct H as [[_ ->]|[[_ [-> _]]|H]]; try exact Hnodup.
  destruct H as [response [body [verdict [n [data [_ [Hdup [Hadds Hhow]]]]]]]].
  destruct Hhow as [[_ [_ ->]]|[_ [k [Hk _]]]]; [|congruence].
  rewrite (adds_file_digests fs fs' n body Hadds).
  apply NoDup_app; [exact Hnodup|repeat constructor; intros []|].
  intros d Hd [<-|[]].
  exact (not_duplicate_not_in_digests body directory fs verdict Hwf Hdup Hd).
Qed.




(** X10: while writes succeed, a batch never stores the same content
    twice: if no two readable files of the directory have the same
    digest before, none have afterwards. *)
Theorem batch_never_stores_content_twice net directory urls :
  forall fs outcomes fs',
    wf_fs fs = true ->
    on_write fs = NoWriteFault ->
    NoDup (digests fs) ->
    process_urls guess_extension net urls directory fs = Some (outcomes, fs') ->
    NoDup (digests fs').
Proof.
  induction urls as [|url urls IH]; intros fs outcomes fs' Hwf Hw Hnodup.
  - intros [= _ <-]. exact Hnodup.
  - cbn [process_urls].
    destruct (download_single_image guess_extension net url directory fs)
      as [[ok fs1]|] eqn:H1; [|discriminate].
    destruct (process_urls guess_extension net urls directory fs1)
      as [[oks fs2]|] eqn:H2; [|discriminate].
    intros [= _ <-].
    apply (IH fs1 oks fs2).
    + exact (download_keeps_wf net url directory fs ok fs1 Hwf H1).
    + rewrite (download_keeps_on_write net url directory fs ok fs1 H1). exact Hw.
    + exact (download_keeps_digests_apart net url directory fs ok fs1
               Hwf Hw Hnodup H1).
    + exact H2.
Qed.

End Invariants.

Lemma download_keeps_existing_files_witness :
  (exists added,
      entries (with_new_file image_fs (lit "image_1.jpg") (bytes_of "two"))
      = entries image_fs ++ added /\ length added <= 1
      /\ forall n x, In (n, x) added -> lookup n (entries image_fs) = None)
  /\ (forall n x,
         lookup n (entries image_fs) = Some x ->
         lookup n (entries (with_new_file image_fs (lit "image_1.jpg")
                                          (bytes_of "two"))) = Some x)
  /\ on_write (with_new_file image_fs (lit "image_1.jpg") (bytes_of "two"))
     = on_write image_fs.
Proof.
  apply (download_keeps_existing_files sample_guess_extension
           (serve (respond "image/jpeg" "3" "two"))
           (lit "https://b.example/photos/image.jpg") sample_dir image_fs true).
  vm_compute. reflexivity.
Defined.

Lemma success_means_content_is_stored_witness :
  wf_fs image_fs = true
  /\ exists response body n x,
      requests_get (serve (respond "image/jpeg" "3" "two"))
                   (lit "https://b.example/photos/image.jpg") = Ok response
      /\ content response = Ok body
      /\ In (n, x) (entries (with_new_file image_fs (lit "image_1.jpg")
                                           (bytes_of "two")))
      /\ file_digest x = Some (MD5.hexdigest (MD5.md5 body)).
Proof.
  split; [vm_compute; reflexivity|].
  apply (success_means_content_is_stored sample_guess_extension
           (serve (respond "image/jpeg" "3" "two"))
           (lit "https://b.example/photos/image.jpg") sample_dir image_fs).
  - vm_compute. reflexivity.
  - vm_compute. reflexivity.
Defined.

Lemma failure_leaves_directory_alone_witness :
  with_new_file full_disk_fs (lit "cat.png") (bytes_of "a") = full_disk_fs
  \/ exists k response body n,
      on_write full_disk_fs = WriteFails k
      /\ requests_get (serve (respond "image/png" "3" "abc"))
                      (lit "https://x/cat.png") = Ok response
      /\ content response = Ok body
      /\ adds_file full_disk_fs
                   (with_new_file full_disk_fs (lit "cat.png") (bytes_of "a"))
                   n (firstn k body).
Proof.
  apply (failure_leaves_directory_alone sample_guess_extension
           (serve (respond "image/png" "3" "abc"))
           (lit "https://x/cat.png") sample_dir full_disk_fs).
  vm_compute. reflexivity.
Defined.


Lemma batch_never_stores_content_twice_witness :
  NoDup (digests (with_new_file empty_fs (lit "test.png") (bytes_of "abc"))).
Proof.
  apply (batch_never_stores_content_twice sample_guess_extension
           (serve (respond "image/png" "3" "abc")) sample_dir
           [lit "https://x/test.png"; lit "https://x/test.png"]
           empty_fs [true; true]).
  - vm_compute. reflexivity.
  - reflexivity.
  - constructor.
  - vm_compute. reflexivity.
Defined.

(** ** Repeating and probing *)

Section Repeating.

Variable guess_extension : str -> option str.

(** X11: running a successful call again changes nothing: the second run
    finds the content in the directory, returns [True] and writes no
    second file. *)
Theorem repeated_download_writes_nothing net url directory fs fs' :
  wf_fs fs = true ->
  download_single_image guess_extension net url directory fs = Some (true, fs') ->
  download_single_image guess_extension net url directory fs' = Some (true, fs').
Proof.
  intros Hwf H. pose proof (download_has_effect _ _ _ _ _ _ _ H) as Heff.
  destruct Heff as [[Hok _]|[[_ [-> _]]|Heff]]; [discriminate|exact H|].
  destruct Heff as [response [body [verdict [n [data [Hf [_ [Hadds Hhow]]]]]]]].
  destruct Hhow as [[_ [_ ->]]|[Hok _]]; [|discriminate].
  pose proof (adds_file_wf fs fs' n body Hwf Hadds) as Hwf'.
  destruct Hf as [Hprobe [Hget [Hstatus [[message Hsafe] Hbody]]]].
  destruct (digest_present_is_duplicate body directory fs' n
              (RegularFile body NoFault) Hwf') as [name Hdup].
  { destruct Hadds as [_ [_ ->]]. cbn [entries with_new_file].
    apply in_or_app. right. left. reflexivity. }
  { reflexivity. }
  unfold download_single_image, download_single_image_fuel.
  rewrite (download_body_fetched guess_extension _ net url directory fs'
             response message body Hprobe Hget Hstatus Hsafe Hbody).
  unfold bindM, reading. rewrite Hdup. reflexivity.
Qed.

Lemma probe_headers_swallows net url :
  (forall e, requests_head net url = Raise e -> is_RequestException e = true) ->
  probe_headers net url = Ok tt.
Proof.
  intros H. unfold probe_headers.
  destruct (requests_head net url) as [r|e] eqn:E; cbn [bind].
  - unfold raise_for_status. destruct (_ && _); reflexivity.
  - rewrite (H e eq_refl). reflexivity.
Qed.

(** X12: the HEAD request is best effort: whether it succeeds, is
    answered with an error status, or fails with any [RequestException],
    the call does what it would do had the HEAD request failed. *)
Theorem head_request_is_best_effort net url directory fs :
  (forall e, requests_head net url = Raise e -> is_RequestException e = true) ->
  download_single_image guess_extension net url directory fs
  = download_single_image guess_extension (without_head net) url directory fs.
Proof.
  intros H.
  unfold download_single_image, download_single_image_fuel, download_body.
  unfold bindM at 1 6, lift at 1 6.
  rewrite (probe_headers_swallows net url H).
  rewrite (probe_headers_swallows (without_head net) url)
    by (cbn; intros e [= <-]; reflexivity).
  reflexivity.
Qed.

(** X13: a GET answered with a 4xx or 5xx status is never saved: the
    call returns [False] and the directory is unchanged, whatever the
    headers and the body of the answer. *)
Theorem http_error_is_not_saved net url directory fs response :
  requests_get net url = Ok response ->
  400 <= status_code response < 600 ->
  download_single_image guess_extension net url directory fs = Some (false, fs).
Proof.
  intros Hget [Hlo Hhi].
  assert (raise_for_status response = Raise RequestException) as Hstatus.
  { unfold raise_for_status.
    replace (400 <=? status_code response) with true
      by (symmetry; apply Nat.leb_le; exact Hlo).
    replace (status_code response <? 600) with true
      by (symmetry; apply Nat.ltb_lt; exact Hhi).
    reflexivity. }
  unfold download_single_image, download_single_image_fuel, download_body.
  unfold bindM, lift.
  destruct (probe_headers net url) as [[]|e].
  - rewrite Hget, Hstatus. reflexivity.
  - destruct (is_RequestException e); reflexivity.
Qed.

End Repeating.

Lemma repeated_download_writes_nothing_witness :
  download_single_image sample_guess_extension
    (serve (respond "image/jpeg" "3" "two"))
    (lit "https://b.example/photos/image.jpg") sample_dir
    (with_new_file image_fs (lit "image_1.jpg") (bytes_of "two"))
  = Some (true, with_new_file image_fs (lit "image_1.jpg") (bytes_of "two")).
Proof.
  apply (repeated_download_writes_nothing sample_guess_extension
           (serve (respond "image/jpeg" "3" "two"))
           (lit "https://b.example/photos/image.jpg") sample_dir image_fs).
  - vm_compute. reflexivity.
  - vm_compute. reflexivity.
Defined.

Lemma head_request_is_best_effort_witness :
  download_single_image sample_guess_extension head_refused
    (lit "https://x/cat.png") sample_dir empty_fs
  = download_single_image sample_guess_extension (without_head head_refused)
      (lit "https://x/cat.png") sample_dir empty_fs.
Proof.
  apply (head_request_is_best_effort sample_guess_extension head_refused
           (lit "https://x/cat.png") sample_dir empty_fs).
  intros e H. vm_compute in H. discriminate.
Defined.

Lemma http_error_is_not_saved_witness :
  download_single_image sample_guess_extension not_found
    (lit "https://x/cat.png") sample_dir empty_fs
  = Some (false, empty_fs).
Proof.
  apply (http_error_is_not_saved sample_guess_extension not_found
           (lit "https://x/cat.png") sample_dir empty_fs
           {| status_code := 404;
              response_headers := [(lit "Content-Type", lit "image/png")];
              content := Ok (bytes_of "abc") |}).
  - reflexivity.
  - cbn [status_code]. lia.
Defined.

(** ** Which duplicate is reported *)

Lemma find_first {A} (f : A -> bool) l x :
  find f l = Some x ->
  exists l1 l2, l = l1 ++ x :: l2 /\ f x = true
                /\ forall y, In y l1 -> f y = false.
Proof.
  induction l as [|a l IH]; [discriminate|].
  cbn [find]. destruct (f a) eqn:Ha.
  - intros [= <-]. exists [], l. repeat split; [exact Ha|contradiction].
  - intros H. destruct (IH H) as [l1 [l2 [-> [Hx Hl1]]]].
    exists (a :: l1), l2. repeat split; [exact Hx|].
    intros y [<-|Hy]; [exact Ha|exact (Hl1 y Hy)].
Qed.

(** X14: the duplicate that is reported is the first entry, in listing
    order, with the digest of the content: no entry before it has that
    digest. *)
Theorem duplicate_scan_reports_first_match content directory fs name :
  wf_fs fs = true ->
  is_duplicate_image content directory fs = Ok (true, Some name) ->
  exists earlier x later,
    entries fs = earlier ++ (name, x) :: later
    /\ file_digest x = Some (MD5.hexdigest (MD5.md5 content))
    /\ forall e, In e earlier ->
                 file_digest (snd e) <> Some (MD5.hexdigest (MD5.md5 content)).
Proof.
  intros Hwf H.
  rewrite (is_duplicate_image_find content directory fs Hwf) in H.
  destruct (find _ (entries fs)) as [[n x]|] eqn:Hfind; [|discriminate].
  injection H as <-.
  destruct (find_first _ _ _ Hfind) as [l1 [l2 [Hl [Hx Hl1]]]].
  exists l1, x, l2. split; [exact Hl|].
  unfold digest_matches in Hx. cbn [snd] in Hx. apply hash_eqb_Some in Hx.
  split; [exact Hx|].
  intros e He Hd. specialize (Hl1 e He). unfold digest_matches in Hl1.
  apply hash_eqb_Some in Hd. congruence.
Qed.

Lemma duplicate_scan_reports_first_match_witness :
  exists earlier x later,
    entries sample_fs = earlier ++ (lit "cat.jpeg", x) :: later
    /\ file_digest x = Some (MD5.hexdigest (MD5.md5 (bytes_of "abc")))
    /\ forall e, In e earlier ->
                 file_digest (snd e)
                 <> Some (MD5.hexdigest (MD5.md5 (bytes_of "abc"))).
Proof.
  apply (duplicate_scan_reports_first_match (bytes_of "abc") sample_dir
           sample_fs (lit "cat.jpeg")).
  - vm_compute. reflexivity.
  - vm_compute. reflexivity.
Defined.

(** ** The shape of a digest *)

Lemma le_bytes_length n x : length (MD5.le_bytes n x) = n.
Proof. unfold MD5.le_bytes. rewrite length_map, length_seq. reflexivity. Qed.

Lemma digest_length st : length (MD5.digest st) = 16.
Proof.
  unfold MD5.digest.
  destruct (fold_left MD5.compress _ _) as [[[a b] c] d].
  rewrite !length_app, !le_bytes_length. reflexivity.
Qed.

Lemma hex_digit_is_hex x : in_chars (MD5.hex_digit x) hex_chars = true.
Proof.
  unfold MD5.hex_digit. generalize (Z.to_nat x). intros n.
  do 17 (destruct n as [|n]; [reflexivity|]). reflexivity.
Qed.

Lemma hexdigest_shape st :
  length (MD5.hexdigest st) = 32
  /\ forallb (fun c => in_chars c hex_chars) (MD5.hexdigest st) = true.
Proof.
  unfold MD5.hexdigest. pose proof (digest_length st) as Hlen.
  generalize dependent (MD5.digest st). intros l Hlen. split.
  - replace 32 with (2 * length l) by lia. clear Hlen.
    induction l as [|x l IH]; [reflexivity|].
    cbn [flat_map length app]. rewrite IH. lia.
  - clear Hlen. induction l as [|x l IH]; [reflexivity|].
    cbn [flat_map app forallb]. rewrite !hex_digit_is_hex, IH. reflexivity.
Qed.

(** X15: when [calculate_file_hash] returns a hash, it is a string of
    32 lower-case hexadecimal digits; so is the hash of new content it
    is compared with. *)
Theorem file_hash_is_32_hex_digits directory fs filepath h :
  calculate_file_hash directory fs filepath = Ok (Some h) ->
  length h = 32 /\ forallb (fun c => in_chars c hex_chars) h = true.
Proof.
  rewrite calculate_file_hash_stat.
  destruct (stat directory fs filepath) as [[data fault| |]|];
    cbn [file_digest]; try discriminate.
  destruct (read_fails data fault); [discriminate|].
  intros [= <-]. apply hexdigest_shape.
Qed.

Lemma file_hash_is_32_hex_digits_witness :
  length (lit "900150983cd24fb0d6963f7d28e17f72") = 32
  /\ forallb (fun c => in_chars c hex_chars)
             (lit "900150983cd24fb0d6963f7d28e17f72") = true.
Proof.
  apply (file_hash_is_32_hex_digits sample_dir sample_fs
           (join sample_dir (lit "cat.jpeg"))).
  vm_compute. reflexivity.
Defined.

(** ** The URLs [main] reads *)

Lemma split_go_pieces c s : forall cur piece,
  in_chars c cur = false ->
  In piece (split_go [c] s cur 0) -> in_chars c piece = false.
Proof.
  induction s as [|x s IH]; intros cur piece Hcur.
  - cbn [split_go]. intros [<-|[]]. rewrite in_chars_rev. exact Hcur.
  - cbn [split_go startswith length Nat.sub].
    destruct (Ascii.eqb_spec c x) as [->|Hne]; cbn [andb].
    + intros [<-|Hin].
      * rewrite in_chars_rev. exact Hcur.
      * exact (IH [] piece eq_refl Hin).
    + apply IH. unfold in_chars. cbn [existsb]. fold (in_chars c cur).
      rewrite Hcur. destruct (Ascii.eqb_spec c x); [congruence|reflexivity].
Qed.

Lemma lstrip_suffix cs s : exists p, s = p ++ lstrip cs s.
Proof.
  induction s as [|x s [p Hp]]; [exists []; reflexivity|].
  cbn [lstrip]. destruct (in_chars x cs).
  - exists (x :: p). cbn [app]. f_equal. exact Hp.
  - exists []. reflexivity.
Qed.

Lemma lstrip_head cs s c r : lstrip cs s = c :: r -> in_chars c cs = false.
Proof.
  induction s as [|x s IH]; [discriminate|].
  cbn [lstrip]. destruct (in_chars x cs) eqn:E; [exact IH|].
  intros [= <- _]. exact E.
Qed.

Lemma strip_trimmed cs s : trimmed cs (strip cs s).
Proof.
  unfold strip, rstrip.
  destruct (lstrip cs (rev (lstrip cs s))) as [|c u] eqn:Hu; [exact I|].
  pose proof (lstrip_head cs _ c u Hu) as Hc.
  destruct (lstrip_suffix cs (rev (lstrip cs s))) as [p Hp].
  rewrite Hu in Hp. apply (f_equal (@rev ascii)) in Hp.
  rewrite rev_involutive, rev_app_distr in Hp.
  destruct (rev (c :: u)) as [|a t] eqn:Hrev.
  - apply (f_equal (@length ascii)) in Hrev. rewrite length_rev in Hrev.
    discriminate.
  - cbn [trimmed]. split.
    + cbn [app] in Hp. exact (lstrip_head cs s a _ Hp).
    + rewrite <- Hrev. cbn [rev]. rewrite last_last. exact Hc.
Qed.

(** X16: every URL [main] hands to the pipeline is non-empty, contains
    no comma, and neither starts nor ends with white space. *)
Theorem parsed_urls_are_clean urls_input url :
  In url (parse_urls urls_input) ->
  url <> []
  /\ in_chars ","%char url = false
  /\ trimmed whitespace url.
Proof.
  unfold parse_urls. intros H. apply in_map_iff in H.
  destruct H as [piece [<- Hpiece]]. apply filter_In in Hpiece.
  destruct Hpiece as [Hin Hne]. split; [|split].
  - intros E. fold str in *. rewrite E in Hne. discriminate.
  - unfold strip_ws. rewrite (in_chars_strip ","%char whitespace piece eq_refl).
    exact (split_go_pieces ","%char urls_input [] piece eq_refl Hin).
  - apply strip_trimmed.
Qed.

Lemma parsed_urls_are_clean_witness :
  lit "https://b.example/image.jpg" <> []
  /\ in_chars ","%char (lit "https://b.example/image.jpg") = false
  /\ trimmed whitespace (lit "https://b.example/image.jpg").
Proof.
  apply (parsed_urls_are_clean
           (lit " https://a.example/image.jpg , ,https://b.example/image.jpg ")).
  vm_compute. right. left. reflexivity.
Defined.

(** X17: [main] always comes to an end.  A blank line downloads nothing
    and leaves the directory as it is.  Any other line is split into its
    URLs, each URL gets one outcome from the batch loop, and the summary
    reports the number of [True] outcomes and the number of URLs, the
    first never above the second; the directory is the one the batch
    leaves. *)
Theorem main_reports_counts guess_extension net typed fs :
  exists summary fs',
    main guess_extension net typed fs = Some (summary, fs')
    /\ (strip_ws typed = [] -> summary = None /\ fs' = fs)
    /\ (strip_ws typed <> [] ->
        exists outcomes,
          process_urls guess_extension net (parse_urls (strip_ws typed))
                       fetched_images fs = Some (outcomes, fs')
          /\ length outcomes = length (parse_urls (strip_ws typed))
          /\ summary = Some (successful_downloads outcomes,
                             length (parse_urls (strip_ws typed)))
          /\ successful_downloads outcomes
             <= length (parse_urls (strip_ws typed)))
    /\ (forall successes total,
           summary = Some (successes, total) ->
           successes <= total
           /\ total = length (parse_urls (strip_ws typed))).
Proof.
  unfold main.
  destruct (strip_ws typed) as [|c rest] eqn:Hline.
  - exists None, fs. split; [reflexivity|]. split; [split; reflexivity|].
    split; [congruence|discriminate].
  - destruct (process_urls_returns guess_extension net fetched_images
                (parse_urls (c :: rest)) fs) as [outcomes [fs' [Hrun Hlen]]].
    rewrite Hrun.
    assert (successful_downloads outcomes <= length (parse_urls (c :: rest)))
      as Hle.
    { rewrite <- Hlen. unfold successful_downloads. apply filter_length_le. }
    exists (Some (successful_downloads outcomes,
                  length (parse_urls (c :: rest)))), fs'.
    split; [reflexivity|]. split; [discriminate|]. split.
    + intros _. exists outcomes. repeat split; assumption.
    + intros successes total [= <- <-]. split; [exact Hle|reflexivity].
Qed.

Lemma main_reports_counts_witness :
  (exists summary fs',
      main sample_guess_extension two_hosts (lit "   ") empty_fs
      = Some (summary, fs')
      /\ summary = None /\ fs' = empty_fs)
  /\ main sample_guess_extension two_hosts
       (lit "https://a.example/image.jpg, http://[x]/cat.png,https://b.example/image.jpg")
       empty_fs
     = Some (Some (2, 3),
             with_new_file
               (with_new_file empty_fs (lit "image.jpg") (bytes_of "one"))
               (lit "image_1.jpg") (bytes_of "two")).
Proof.
  split.
  - destruct (main_reports_counts sample_guess_extension two_hosts (lit "   ")
                empty_fs) as [summary [fs' [Hrun [Hblank _]]]].
    exists summary, fs'. split; [exact Hrun|]. apply Hblank. reflexivity.
  - destruct (main_reports_counts sample_guess_extension two_hosts
                (lit "https://a.example/image.jpg, http://[x]/cat.png,https://b.example/image.jpg")
                empty_fs) as [summary [fs' [Hrun [_ [Hline _]]]]].
    destruct Hline as [outcomes [Hbatch [_ [Hsum _]]]];
      [vm_compute; discriminate|].
    vm_compute in Hbatch. injection Hbatch as <- <-.
    rewrite Hrun, Hsum. reflexivity.
Defined.

(** A line with two URLs and an empty field between them. *)
Example main_two_urls :
  main sample_guess_extension two_hosts
    (lit " https://a.example/image.jpg , ,https://b.example/image.jpg ")
    empty_fs
  = Some (Some (2, 2),
          with_new_file
            (with_new_file empty_fs (lit "image.jpg") (bytes_of "one"))
            (lit "image_1.jpg") (bytes_of "two")).
Proof. vm_compute. reflexivity. Qed.

(** ** The names of the files that are created *)




Section Names.

Variable guess_extension : str -> option str.




Lemma download_growth net url directory fs ok fs' :
  on_write fs = NoWriteFault ->
  download_single_image guess_extension net url directory fs = Some (ok, fs') ->
  length (entries fs') <= length (entries fs) + (if ok then 1 else 0).
Proof.
  intros Hw H. apply download_has_effect in H.
  destruct H as [[-> ->]|[[-> [-> _]]|H]]; [lia|lia|].
  destruct H as [response [body [verdict [n [data [_ [_ [[_ [_ ->]] Hhow]]]]]]]].
  destruct Hhow as [[-> _]|[_ [k [Hk _]]]]; [|congruence].
  cbn [entries with_new_file]. rewrite length_app. cbn [length]. lia.
Qed.

(** X19: while writes succeed, a batch adds at most as many files as it
    reports successes. *)
Theorem batch_adds_at_most_its_successes net directory urls :
  forall fs outcomes fs',
    on_write fs = NoWriteFault ->
    process_urls guess_extension net urls directory fs = Some (outcomes, fs') ->
    length (entries fs')
    <= length (entries fs) + successful_downloads outcomes.
Proof.
  induction urls as [|url urls IH]; intros fs outcomes fs' Hw.
  - intros [= <- <-]. cbn. lia.
  - cbn [process_urls].
    destruct (download_single_image guess_extension net url directory fs)
      as [[ok fs1]|] eqn:H1; [|discriminate].
    destruct (process_urls guess_extension net urls directory fs1)
      as [[oks fs2]|] eqn:H2; [|discriminate].
    intros [= <- <-].
    pose proof (download_growth net url directory fs ok fs1 Hw H1) as Hstep.
    assert (on_write fs1 = NoWriteFault) as Hw1.
    { apply download_has_effect in H1.
      destruct H1 as [[_ ->]|[[_ [-> _]]|H1]]; try exact Hw.
      destruct H1 as [response [body [verdict [n [data [_ [_ [[_ [_ ->]] _]]]]]]]].
      exact Hw. }
    specialize (IH fs1 oks fs2 Hw1 H2).
    unfold successful_downloads in *. cbn [filter].
    destruct ok; cbn [length]; lia.
Qed.

End Names.

Lemma sample_extensions_are_plain : plain_extensions sample_guess_extension.
Proof.
  intros t e. unfold sample_guess_extension.
  repeat match goal with
         | |- context [if ?b then _ else _] => destruct b
         end;
    intros [= <-]; right; split; reflexivity.
Qed.


Lemma batch_adds_at_most_its_successes_witness :
  length (entries (with_new_file empty_fs (lit "test.png") (bytes_of "abc")))
  <= length (entries empty_fs) + successful_downloads [true; true].
Proof.
  apply (batch_adds_at_most_its_successes sample_guess_extension
           (serve (respond "image/png" "3" "abc")) sample_dir
           [lit "https://x/test.png"; lit "https://x/test.png"] empty_fs).
  - reflexivity.
  - vm_compute. reflexivity.
Defined.

(** X20: over a MIME database with plain extensions, the name that
    [get_filename_from_url] returns is never empty, consists of safe
    characters, and contains a dot and no path separator. *)
Theorem returned_name_is_safe guess_extension url response name :
  plain_extensions guess_extension ->
  get_filename_from_url guess_extension url response = Ok name ->
  name <> []
  /\ sanitized name = true
  /\ has_dot name = true
  /\ in_chars "/"%char name = false.
Proof.
  intros Hplain Hname.
  destruct (get_filename_from_url_safe_with_dot guess_extension url response
              name Hplain Hname) as [Hsafe Hdot].
  split; [intros ->; discriminate|].
  split; [exact Hsafe|]. split; [exact Hdot|].
  exact (sanitized_no_slash name Hsafe).
Qed.

Lemma returned_name_is_safe_witness :
  lit "my photo1.png" <> []
  /\ sanitized (lit "my photo1.png") = true
  /\ has_dot (lit "my photo1.png") = true
  /\ in_chars "/"%char (lit "my photo1.png") = false.
Proof.
  apply (returned_name_is_safe sample_guess_extension
           (lit "https://x.org/a/my photo~1.png?size=2") renaming_response).
  - exact sample_extensions_are_plain.
  - vm_compute. reflexivity.
Defined.
